(** * shelf_track: a console inventory manager over two SQLite tables

    Shallow embedding of [shelf_track.py].  The program keeps two tables,
    [author (id, name, country)] and [book (id, title, authorID, qty)], in
    an SQLite file and offers five interactive operations on them.

    Modelling choices, all taken from the source and from the behaviour of
    the two things it calls into (the Python builtins and the [sqlite3]
    module):
    - a table with an [INTEGER PRIMARY KEY] is a finite map from the key to
      the remaining columns; a table that has not been created is [None];
    - a character is one [ascii] value (code points 0..255), a Python
      [str] is a [string];
    - a Python [int] is a [Z]; SQLite keeps 64 signed bits and the
      [sqlite3] module refuses to bind anything larger;
    - operator input is the list of lines still to be read; [input()] on an
      exhausted list raises [EOFError];
    - [print] appends one message to the output; the prompt given to
      [input()] is not recorded;
    - exceptions are values; an operation yields either [Return] or
      [Raise], together with the world it leaves behind;
    - a connection works on its own copy of the tables; [commit] publishes
      the copy, leaving the [with] block by an exception discards it;
    - the interpreter's cap on the digits of an integer literal and the
      engine's cap on a LIKE pattern are modelled, with their default
      values; the engine's cap of 10^9 bytes on a row is not: the tables
      of the model take a text of any length. *)

From Stdlib Require Import ZArith String Ascii List Bool.
From stdpp Require Import gmap strings list fin_maps.

Local Open Scope string_scope.
Local Open Scope Z_scope.

(** ** Python builtins used by the program *)

Module Py.

(** Characters for which [str.isspace] holds, among code points 0..255:
    TAB, LF, VT, FF, CR, FS, GS, RS, US, SPACE, NEL and NBSP. *)
Definition is_space (c : ascii) : bool :=
  let n := nat_of_ascii c in
  ((9 <=? n) && (n <=? 13) || (28 <=? n) && (n <=? 32)
   || (n =? 133) || (n =? 160))%nat.

Fixpoint lstrip (s : string) : string :=
  match s with
  | EmptyString => EmptyString
  | String c s' => if is_space c then lstrip s' else s
  end.

Fixpoint rstrip (s : string) : string :=
  match s with
  | EmptyString => EmptyString
  | String c s' =>
      match rstrip s' with
      | EmptyString => if is_space c then EmptyString else String c EmptyString
      | r => String c r
      end
  end.

(** [str.strip()] *)
Definition strip (s : string) : string := rstrip (lstrip s).

Definition digit_val (c : ascii) : option Z :=
  let n := nat_of_ascii c in
  if ((48 <=? n) && (n <=? 57))%nat then Some (Z.of_nat n - 48) else None.

(** Digits of a decimal literal; single underscores are allowed between
    digits.  [prev] tells whether the previous character was a digit. *)
Fixpoint digits (acc : Z) (prev : bool) (s : string) : option Z :=
  match s with
  | EmptyString => if prev then Some acc else None
  | String c s' =>
      match digit_val c with
      | Some d => digits (10 * acc + d) true s'
      | None =>
          if (Ascii.eqb c "_" && prev)%bool then digits acc false s' else None
      end
  end.

(** The whitespace [int()] skips around a literal.  It is narrower than
    that of [str.strip]: ASCII characters are tested with C's [isspace]
    (TAB, LF, VT, FF, CR, SPACE), so FS, GS, RS and US are not skipped;
    beyond ASCII, NEL and NBSP are. *)
Definition is_int_space (c : ascii) : bool :=
  let n := nat_of_ascii c in
  ((9 <=? n) && (n <=? 13) || (n =? 32) || (n =? 133) || (n =? 160))%nat.

Fixpoint int_lstrip (s : string) : string :=
  match s with
  | EmptyString => EmptyString
  | String c s' => if is_int_space c then int_lstrip s' else s
  end.

Fixpoint int_rstrip (s : string) : string :=
  match s with
  | EmptyString => EmptyString
  | String c s' =>
      match int_rstrip s' with
      | EmptyString =>
          if is_int_space c then EmptyString else String c EmptyString
      | r => String c r
      end
  end.

(** The number of decimal digits in a string, and the interpreter's cap on
    it ([sys.get_int_max_str_digits()], 4300 unless reconfigured): a
    literal with more digits, leading zeros counted, underscores and sign
    not, is refused. *)
Fixpoint count_digits (s : string) : Z :=
  match s with
  | EmptyString => 0
  | String c s' =>
      (match digit_val c with Some _ => 1 | None => 0 end) + count_digits s'
  end.

Definition int_max_str_digits : Z := 4300.

Definition literal (r : string) : option Z :=
  if int_max_str_digits <? count_digits r then None else digits 0 false r.

(** [int(s)] for a string argument: surrounding whitespace is dropped, an
    optional sign is followed by the digits.  [None] stands for
    [ValueError]. *)
Definition int (s : string) : option Z :=
  match int_rstrip (int_lstrip s) with
  | String "-" r => Z.opp <$> literal r
  | String "+" r => literal r
  | r => literal r
  end.

(** [a or b] on strings: the empty string is falsy. *)
Definition or_else (a b : string) : string :=
  match a with EmptyString => b | _ => a end.

End Py.

(** ** Data model *)

Record author_row := AuthorRow { name : string; country : string }.
Record book_row := BookRow { title : string; authorID : Z; qty : Z }.

(** The database file: each table is absent or a map from [id] to the
    other columns. *)
Record db := Db {
  author : option (gmap Z author_row);
  book : option (gmap Z book_row)
}.

Definition no_tables : db := Db None None.

Definition set_author (t : gmap Z author_row) (d : db) : db := Db (Some t) (book d).
Definition set_book (t : gmap Z book_row) (d : db) : db := Db (author d) (Some t).

(** Exceptions the program can meet. *)
Inductive exn :=
  | ValueError        (* int() on a non-numeric string *)
  | EOFError          (* input() at end of input *)
  | OverflowError     (* an int that does not fit SQLite's INTEGER *)
  | IntegrityError    (* duplicate primary key *)
  | OperationalError. (* a statement on a table that does not exist, or a
                         LIKE pattern over the engine's limit *)

(** One constructor per [print] call of the program. *)
Inductive msg :=
  | BookAdded (t : string)
  | ErrorAddingBook (e : exn)
  | UpdateOptions
  | UpdateOption (n : Z) (label : string)
  | CurrentAuthor (n c : string)
  | AuthorNotFound
  | InvalidChoice
  | Updated
  | ErrorUpdatingBook (e : exn)
  | Deleted (id : Z)
  | ErrorDeletingBook (e : exn)
  | SearchResults
  | SearchRow (id : Z) (t : string) (a q : Z)
  | NoBooksFound
  | BookDetails
  | BookDetail (t n c : string).

(** ** Worlds and the monad of operations *)

Record world := World {
  stdin : list string;  (* lines not yet read *)
  stdout : list msg;    (* messages printed so far, oldest first *)
  disk : db;            (* committed contents of ebookstore.db *)
  conn : db             (* the open connection's view of the tables *)
}.

Inductive outcome (A : Type) :=
  | Return (a : A)
  | Raise (e : exn).
Arguments Return {A} a.
Arguments Raise {A} e.

Definition M (A : Type) : Type := world → outcome A * world.

Definition ret {A} (a : A) : M A := λ w, (Return a, w).
Definition raise {A} (e : exn) : M A := λ w, (Raise e, w).
Definition bind {A B} (m : M A) (k : A → M B) : M B :=
  λ w, match m w with
       | (Return a, w') => k a w'
       | (Raise e, w') => (Raise e, w')
       end.

Declare Scope op_scope.
Delimit Scope op_scope with op.
Notation "x <- m ;; k" := (bind m (λ x, k))
  (at level 100, m at next level, right associativity) : op_scope.
Notation "m ;;; k" := (bind m (λ _, k))
  (at level 100, right associativity) : op_scope.
Local Open Scope op_scope.

(** [try: body except Exception as e: handler e] *)
Definition try_except {A} (body : M A) (handler : exn → M A) : M A :=
  λ w, match body w with
       | (Return a, w') => (Return a, w')
       | (Raise e, w') => handler e w'
       end.

(** [input(prompt)] *)
Definition input : M string :=
  λ w, match stdin w with
       | [] => (Raise EOFError, w)
       | l :: ls => (Return l, World ls (stdout w) (disk w) (conn w))
       end.

(** [print(m)] *)
Definition print (m : msg) : M unit :=
  λ w, (Return tt, World (stdin w) (stdout w ++ [m]) (disk w) (conn w)).

(** [int(s)] *)
Definition int (s : string) : M Z :=
  match Py.int s with
  | Some z => ret z
  | None => raise ValueError
  end.

Fixpoint for_each {A} (l : list A) (body : A → M unit) : M unit :=
  match l with
  | [] => ret tt
  | x :: l' => body x ;;; for_each l' body
  end.

(** ** The storage engine, as the program uses it *)

Module Sql.

(** SQLite stores an INTEGER in 64 signed bits; the [sqlite3] module
    raises [OverflowError] when asked to bind a Python int outside that
    range as a statement parameter. *)
Definition in_int64 (z : Z) : bool :=
  (- 2 ^ 63 <=? z) && (z <? 2 ^ 63).

Definition bind_int (z : Z) : M unit :=
  if in_int64 z then ret tt else raise OverflowError.

(** ASCII case folding, the only one [LIKE] performs. *)
Definition lower (c : ascii) : ascii :=
  let n := nat_of_ascii c in
  if ((65 <=? n) && (n <=? 90))%nat then ascii_of_nat (n + 32) else c.

(** The number of bytes of a text in UTF-8, the encoding of the file:
    one for an ASCII character, two for the other code points up to 255. *)
Fixpoint utf8_length (s : string) : Z :=
  match s with
  | EmptyString => 0
  | String c s' =>
      (if (nat_of_ascii c <? 128)%nat then 1 else 2) + utf8_length s'
  end.

Arguments utf8_length : simpl never.


(** A text as a C function reads it: up to its first NUL. *)
Fixpoint c_str (s : string) : string :=
  match s with
  | EmptyString => EmptyString
  | String c s' =>
      if Ascii.eqb c "000" then EmptyString else String c (c_str s')
  end.

(** SQLite's [patternCompare] for LIKE without an ESCAPE clause, on texts
    without NUL: [%] stands for any run of characters, [_] for any one
    character, any other pattern character for itself up to ASCII case. *)
Fixpoint pattern_compare (p s : string) : bool :=
  match p with
  | EmptyString => match s with EmptyString => true | _ => false end
  | String c p' =>
      if Ascii.eqb c "%" then
        (fix any (s : string) : bool :=
           pattern_compare p' s ||
           match s with
           | EmptyString => false
           | String _ s' => any s'
           end) s
      else
        match s with
        | EmptyString => false
        | String d s' =>
            (Ascii.eqb c "_" || Ascii.eqb (lower c) (lower d))
            && pattern_compare p' s'
        end
  end.

Arguments pattern_compare : simpl never.

(** [s LIKE p]: the pattern and the text are both compared as C strings,
    so neither is read beyond a NUL. *)
Definition like (p s : string) : bool :=
  pattern_compare (c_str p) (c_str s).

Arguments like : simpl never.

(** The longest pattern LIKE accepts, in bytes
    (SQLITE_MAX_LIKE_PATTERN_LENGTH); the bytes after a NUL count. *)
Definition like_pattern_limit : Z := 50000.

(** [connect_db()]: a fresh connection sees the committed tables. *)
Definition connect_db : M unit :=
  λ w, (Return tt, World (stdin w) (stdout w) (disk w) (disk w)).
Definition commit : M unit :=
  λ w, (Return tt, World (stdin w) (stdout w) (conn w) (conn w)).
Definition rollback : M unit :=
  λ w, (Return tt, World (stdin w) (stdout w) (disk w) (disk w)).

Definition tables : M db := λ w, (Return (conn w), w).
Definition write (d : db) : M unit :=
  λ w, (Return tt, World (stdin w) (stdout w) (disk w) d).

(** A statement that names a table fails to compile when the table does
    not exist. *)
Definition author_table : M (gmap Z author_row) :=
  d <- tables ;;
  match author d with Some t => ret t | None => raise OperationalError end.
Definition book_table : M (gmap Z book_row) :=
  d <- tables ;;
  match book d with Some t => ret t | None => raise OperationalError end.

(** [CREATE TABLE IF NOT EXISTS author (...)] *)
Definition create_author : M unit :=
  d <- tables ;;
  match author d with Some _ => ret tt | None => write (set_author ∅ d) end.

(** [CREATE TABLE IF NOT EXISTS book (...)]; the FOREIGN KEY clause is
    recorded by SQLite but not enforced (the program never turns
    enforcement on). *)
Definition create_book : M unit :=
  d <- tables ;;
  match book d with Some _ => ret tt | None => write (set_book ∅ d) end.

(** [SELECT COUNT( * ) FROM author] and [... FROM book] *)
Definition count_author : M Z :=
  t <- author_table ;; ret (Z.of_nat (size t)).
Definition count_book : M Z :=
  t <- book_table ;; ret (Z.of_nat (size t)).

(** [INSERT INTO author VALUES (?, ?, ?)] *)
Definition insert_author (r : Z * string * string) : M unit :=
  let '(id, n, c) := r in
  t <- author_table ;;
  bind_int id ;;;
  match t !! id with
  | Some _ => raise IntegrityError
  | None => d <- tables ;; write (set_author (<[id := AuthorRow n c]> t) d)
  end.

(** [INSERT INTO book VALUES (?, ?, ?, ?)] *)
Definition insert_book (r : Z * string * Z * Z) : M unit :=
  let '(id, ti, a, q) := r in
  t <- book_table ;;
  bind_int id ;;; bind_int a ;;; bind_int q ;;;
  match t !! id with
  | Some _ => raise IntegrityError
  | None => d <- tables ;; write (set_book (<[id := BookRow ti a q]> t) d)
  end.

(** [cursor.executemany(stmt, rows)] *)
Definition executemany {A} (stmt : A → M unit) (rows : list A) : M unit :=
  for_each rows stmt.
Arguments executemany : simpl never.

(** [UPDATE book SET qty = ? WHERE id = ?] *)
Definition update_qty (q id : Z) : M unit :=
  t <- book_table ;;
  bind_int q ;;; bind_int id ;;;
  d <- tables ;;
  write (set_book (alter (λ r, BookRow (title r) (authorID r) q) id t) d).

(** [UPDATE book SET title = ? WHERE id = ?] *)
Definition update_title (ti : string) (id : Z) : M unit :=
  t <- book_table ;;
  bind_int id ;;;
  d <- tables ;;
  write (set_book (alter (λ r, BookRow ti (authorID r) (qty r)) id t) d).

(** [UPDATE book SET authorID = ? WHERE id = ?] *)
Definition update_authorID (a id : Z) : M unit :=
  t <- book_table ;;
  bind_int a ;;; bind_int id ;;;
  d <- tables ;;
  write (set_book (alter (λ r, BookRow (title r) a (qty r)) id t) d).

(** [SELECT a.id, a.name, a.country FROM author a
     JOIN book b ON a.id = b.authorID WHERE b.id = ?], then [fetchone()].
    Both keys are primary keys, so there is at most one row. *)
Definition select_author_of_book (id : Z) : M (option (Z * string * string)) :=
  ta <- author_table ;;
  tb <- book_table ;;
  bind_int id ;;;
  ret (b ← tb !! id; a ← ta !! authorID b; Some (authorID b, name a, country a)).

(** [UPDATE author SET name = ?, country = ? WHERE id = ?] *)
Definition update_author (n c : string) (id : Z) : M unit :=
  t <- author_table ;;
  bind_int id ;;;
  d <- tables ;;
  write (set_author (alter (λ _, AuthorRow n c) id t) d).

(** [DELETE FROM book WHERE id = ?] *)
Definition delete_book (id : Z) : M unit :=
  t <- book_table ;;
  bind_int id ;;;
  d <- tables ;;
  write (set_book (delete id t) d).

(** [SELECT * FROM book WHERE title LIKE ?], then [fetchall()].  The order
    of the rows is the engine's; the model takes the map's enumeration.
    LIKE is evaluated for each row, and fails with "LIKE or GLOB pattern
    too complex" on a pattern over the limit: on an empty table nothing is
    evaluated and nothing fails. *)
Definition select_books_like (p : string) : M (list (Z * book_row)) :=
  t <- book_table ;;
  if negb (size t =? 0)%nat && (like_pattern_limit <? utf8_length p)
  then raise OperationalError
  else ret (filter (λ r, like p (title r.2) = true) (map_to_list t)).

(** [SELECT b.title, a.name, a.country FROM book b
     INNER JOIN author a ON b.authorID = a.id], then [fetchall()]. *)
Definition select_books_join : M (list (string * string * string)) :=
  tb <- book_table ;;
  ta <- author_table ;;
  ret (omap (λ r, a ← ta !! authorID r.2; Some (title r.2, name a, country a))
            (map_to_list tb)).

(** [with connect_db() as conn: body]: the block's changes are committed
    when it ends normally and rolled back when it ends by an exception,
    which then goes on to the caller. *)
Definition with_conn {A} (body : M A) : M A :=
  connect_db ;;;
  (λ w, match body w with
        | (Return a, w') => (commit ;;; ret a) w'
        | (Raise e, w') => (rollback ;;; raise e) w'
        end).

End Sql.

(** ** The program *)

Import Sql.

Definition create_tables : M unit :=
  with_conn (
    create_author ;;;
    create_book ;;;
    commit).

Definition seed_authors : list (Z * string * string) :=
  [ (1290, "Charles Dickens", "England");
    (8937, "J.K. Rowling", "England");
    (2356, "C.S. Lewis", "Ireland");
    (6380, "J.R.R. Tolkien", "South Africa");
    (5620, "Lewis Carroll", "England") ].

Definition seed_books : list (Z * string * Z * Z) :=
  [ (3001, "A Tale of Two Cities", 1290, 30);
    (3002, "Harry Potter and the Philosopher's Stone", 8937, 40);
    (3003, "The Lion, the Witch and the Wardrobe", 2356, 25);
    (3004, "The Lord of the Rings", 6380, 37);
    (3005, "Alice's Adventures in Wonderland", 5620, 12) ].

Definition populate_tables : M unit :=
  with_conn (
    n <- count_author ;;
    (if n =? 0 then executemany insert_author seed_authors else ret tt) ;;;
    n <- count_book ;;
    (if n =? 0 then executemany insert_book seed_books else ret tt) ;;;
    commit).

Definition enter_book : M unit :=
  try_except (
    s <- input ;; id <- int s ;;
    s <- input ;; let title := Py.strip s in
    s <- input ;; authorID <- int s ;;
    s <- input ;; qty <- int s ;;
    with_conn (
      insert_book (id, title, authorID, qty) ;;;
      commit ;;;
      print (BookAdded title)))
  (λ e, print (ErrorAddingBook e)).

Definition update_book : M unit :=
  try_except (
    s <- input ;; book_id <- int s ;;
    print UpdateOptions ;;;
    print (UpdateOption 1 "Quantity") ;;;
    print (UpdateOption 2 "Title") ;;;
    print (UpdateOption 3 "Author ID") ;;;
    print (UpdateOption 4 "Author Name/Country") ;;;
    choice <- input ;;
    with_conn (
      (if String.eqb choice "1" then
         s <- input ;; qty <- int s ;;
         update_qty qty book_id
       else if String.eqb choice "2" then
         title <- input ;;
         update_title title book_id
       else if String.eqb choice "3" then
         s <- input ;; authorID <- int s ;;
         update_authorID authorID book_id
       else if String.eqb choice "4" then
         author <- select_author_of_book book_id ;;
         match author with
         | Some (a_id, a_name, a_country) =>
             print (CurrentAuthor a_name a_country) ;;;
             s <- input ;; let new_name := Py.or_else (Py.strip s) a_name in
             s <- input ;; let new_country := Py.or_else (Py.strip s) a_country in
             update_author new_name new_country a_id
         | None => print AuthorNotFound
         end
       else print InvalidChoice) ;;;
      commit ;;;
      print Updated))
  (λ e, print (ErrorUpdatingBook e)).

Definition delete_book : M unit :=
  try_except (
    s <- input ;; book_id <- int s ;;
    with_conn (
      Sql.delete_book book_id ;;;
      commit ;;;
      print (Deleted book_id)))
  (λ e, print (ErrorDeletingBook e)).

Definition search_books : M unit :=
  s <- input ;; let keyword := Py.strip s in
  with_conn (
    results <- select_books_like ("%" +:+ keyword +:+ "%") ;;
    match results with
    | _ :: _ =>
        print SearchResults ;;;
        for_each results (λ row,
          print (SearchRow row.1 (title row.2) (authorID row.2) (qty row.2)))
    | [] => print NoBooksFound
    end).

Definition view_all_books : M unit :=
  with_conn (
    results <- select_books_join ;;
    print BookDetails ;;;
    for_each results (λ '(title, name, country),
      print (BookDetail title name country))).

(** Storage initialization as [main] performs it. *)
Definition initialize : M unit :=
  create_tables ;;; populate_tables.

(** A world in which no connection is open. *)
Definition at_rest (i : list string) (d : db) : world := World i [] d d.

(** ** Vocabulary of the results *)

(** The contents of the two tables after seeding. *)
Definition seed_author_table : gmap Z author_row :=
  list_to_map (map (λ '(id, n, c), (id, AuthorRow n c)) seed_authors).
Definition seed_book_table : gmap Z book_row :=
  list_to_map (map (λ '(id, t, a, q), (id, BookRow t a q)) seed_books).
Definition seeded : db := Db (Some seed_author_table) (Some seed_book_table).

Definition update_menu : list msg :=
  [ UpdateOptions; UpdateOption 1 "Quantity"; UpdateOption 2 "Title";
    UpdateOption 3 "Author ID"; UpdateOption 4 "Author Name/Country" ].

(** What the operator types for update modes 1 to 3, and the change of a
    book row it asks for: the menu choice, the line with the new value,
    and the row after the change. *)
Inductive field_update : string → string → (book_row → book_row) → Prop :=
  | new_qty s q :
      Py.int s = Some q → in_int64 q = true →
      field_update "1" s (λ r, BookRow (title r) (authorID r) q)
  | new_title t :
      field_update "2" t (λ r, BookRow t (authorID r) (qty r))
  | new_authorID s a :
      Py.int s = Some a → in_int64 a = true →
      field_update "3" s (λ r, BookRow (title r) a (qty r)).

(** What initialization leaves in a table: the seed rows when the table
    was absent or empty, the table itself otherwise. *)
Definition seed_if_empty {V} (seed : gmap Z V) (t : option (gmap Z V)) : gmap Z V :=
  match t with
  | Some t => if (size t =? 0)%nat then seed else t
  | None => seed
  end.

Definition initialized (d : db) : db :=
  Db (Some (seed_if_empty seed_author_table (author d)))
     (Some (seed_if_empty seed_book_table (book d))).

Definition search_row (row : Z * book_row) : msg :=
  SearchRow row.1 (title row.2) (authorID row.2) (qty row.2).

Definition search_report (rows : list (Z * book_row)) : list msg :=
  match rows with
  | [] => [NoBooksFound]
  | _ => SearchResults :: map search_row rows
  end.

Definition book_detail (r : string * string * string) : msg :=
  BookDetail r.1.1 r.1.2 r.2.

(** The rows [search_books] fetches for the operator's line [s]. *)
Definition matches (s : string) (tb : gmap Z book_row) : list (Z * book_row) :=
  filter (λ r, like ("%" +:+ Py.strip s +:+ "%") (title r.2) = true)
         (map_to_list tb).

(** The pattern [search_books] builds from the operator's line [s] is
    within the engine's limit: the stripped keyword has at most 49998
    bytes. *)
Definition fits (s : string) : bool :=
  utf8_length ("%" +:+ Py.strip s +:+ "%") <=? like_pattern_limit.

(** The rows [view_all_books] fetches. *)
Definition joined (ta : gmap Z author_row) (tb : gmap Z book_row)
  : list (string * string * string) :=
  omap (λ r, a ← ta !! authorID r.2; Some (title r.2, name a, country a))
       (map_to_list tb).

(** Case folding of a whole string, and the containment the engine's
    default comparison gives: [k] occurs in [t] up to ASCII case. *)
Fixpoint fold_case (s : string) : string :=
  match s with
  | EmptyString => EmptyString
  | String c s' => String (lower c) (fold_case s')
  end.

Definition contains_ci (t k : string) : Prop :=
  ∃ pre mid post, t = pre +:+ mid +:+ post ∧ fold_case mid = fold_case k.


(** A keyword without the two pattern characters. *)
Fixpoint plain (k : string) : bool :=
  match k with
  | EmptyString => true
  | String c k' => negb (Ascii.eqb c "%") && negb (Ascii.eqb c "_") && plain k'
  end.

(** A decision procedure for [contains_ci], used to refute containment on
    concrete titles. *)
Fixpoint starts_ci (k t : string) : bool :=
  match k, t with
  | EmptyString, _ => true
  | String c k', String d t' => Ascii.eqb (lower c) (lower d) && starts_ci k' t'
  | String _ _, EmptyString => false
  end.

Fixpoint occurs_ci (k t : string) : bool :=
  starts_ci k t ||
  match t with
  | EmptyString => false
  | String _ t' => occurs_ci k t'
  end.

(** Every id and every integer column of a stored row went through
    [bind_int], so it lies in the 64-bit range. *)
Definition storable (d : db) : Prop :=
  (∀ ta id r, author d = Some ta → ta !! id = Some r → in_int64 id = true)
  ∧ (∀ tb id b, book d = Some tb → tb !! id = Some b →
       in_int64 id = true ∧ in_int64 (authorID b) = true
       ∧ in_int64 (qty b) = true).

(** ** The menu *)

(** A line of the session's transcript: a message of one of the five
    operations, or one of the menu's own [print] calls. *)
Inductive line :=
  | Op (m : msg)
  | MenuTitle
  | MenuEntry (n : Z) (label : string)
  | Goodbye
  | InvalidSelection.

(** A session: the lines the operator has still to type, the transcript
    so far, and the database file. *)
Record session := Session {
  typed : list string;
  shown : list line;
  file : db
}.

(** Calling an operation from the menu: it opens its own connection on the
    file, reads from the same input and prints to the same transcript. *)
Definition call (op : M unit) (st : session) : outcome unit * session :=
  let (r, w') := op (World (typed st) [] (file st) (file st)) in
  (r, Session (stdin w') (shown st ++ map Op (stdout w')) (disk w')).

Definition show (ls : list line) (st : session) : session :=
  Session (typed st) (shown st ++ ls) (file st).

Definition menu : list line :=
  [ MenuTitle; MenuEntry 1 "Enter book"; MenuEntry 2 "Update book";
    MenuEntry 3 "Delete book"; MenuEntry 4 "Search books";
    MenuEntry 5 "View details of all books"; MenuEntry 0 "Exit" ].

(** The [while True] loop of [main].  [fuel] bounds the number of
    iterations; [None] means the bound was reached.  An exception that
    leaves an operation, or the loop's own [input()], ends the loop. *)
Fixpoint menu_loop (fuel : nat) (st : session)
  : option (outcome unit * session) :=
  match fuel with
  | O => None
  | S fuel =>
      let st := show menu st in
      match typed st with
      | [] => Some (Raise EOFError, st)
      | choice :: rest =>
          let st := Session rest (shown st) (file st) in
          let next (r : outcome unit * session) :=
            match r with
            | (Return _, st') => menu_loop fuel st'
            | (Raise e, st') => Some (Raise e, st')
            end in
          if String.eqb choice "1" then next (call enter_book st)
          else if String.eqb choice "2" then next (call update_book st)
          else if String.eqb choice "3" then next (call delete_book st)
          else if String.eqb choice "4" then next (call search_books st)
          else if String.eqb choice "5" then next (call view_all_books st)
          else if String.eqb choice "0" then
            Some (Return tt, show [Goodbye] st)
          else menu_loop fuel (show [InvalidSelection] st)
      end
  end.

Definition main (fuel : nat) (st : session)
  : option (outcome unit * session) :=
  match call create_tables st with
  | (Return _, st) =>
      match call populate_tables st with
      | (Return _, st) => menu_loop fuel st
      | (Raise e, st) => Some (Raise e, st)
      end
  | (Raise e, st) => Some (Raise e, st)
  end.

(** Two stores hold rows under the same ids, table by table. *)
Definition same_ids (d d' : db) : Prop :=
  dom <$> author d = dom <$> author d' ∧ dom <$> book d = dom <$> book d'.

(** [n] copies of a character. *)
Fixpoint repeat_char (c : ascii) (n : nat) : string :=
  match n with
  | O => EmptyString
  | S n => String c (repeat_char c n)
  end.

(** Both tables have been created. *)
Definition has_tables (d : db) : Prop :=
  is_Some (author d) ∧ is_Some (book d).

(** The operation a menu choice stands for. *)
Definition dispatch (choice : string) : option (M unit) :=
  if String.eqb choice "1" then Some enter_book
  else if String.eqb choice "2" then Some update_book
  else if String.eqb choice "3" then Some delete_book
  else if String.eqb choice "4" then Some search_books
  else if String.eqb choice "5" then Some view_all_books
  else None.

(** Proves that the input left is a tail of the input given. *)
Ltac suffix_tail :=
  solve [ repeat first [ reflexivity | apply suffix_cons_r ] ].

(** ** Proof tools *)

Ltac run :=
  repeat (progress (
    unfold try_except, with_conn, book_table, author_table,
      bind_int, connect_db, commit, rollback, tables, write, bind, ret, raise,
      input, int, print; simpl)).

(** Closes a goal that differs only in how the output is bracketed. *)
Ltac printed := rewrite <- ?app_assoc; simpl; reflexivity.

(** Explores every path of an operation. *)
Ltac paths :=
  repeat (run;
          match goal with
          | |- context [match ?x with _ => _ end] =>
              lazymatch x with
              | context [match _ with _ => _ end] => fail
              | _ => destruct x eqn:?
              end
          end).

(** ** Supporting lemmas *)

(** *** Python strings *)

Example int_sign_and_underscores : Py.int " -1_000 " = Some (-1000).
Proof. reflexivity. Qed.

Example int_rejects :
  Py.int "" = None ∧ Py.int "12a" = None ∧ Py.int "1__0" = None
  ∧ Py.int "_1" = None ∧ Py.int "1_" = None ∧ Py.int "- 1" = None
  ∧ Py.int "1.5" = None.
Proof. repeat split. Qed.

Example strip_both_ends : Py.strip "  a b  " = "a b".
Proof. reflexivity. Qed.

(** [str.strip] removes the separators FS to US; [int()] does not skip
    them. *)
Example int_keeps_separators :
  Py.strip (String "028" "3002") = "3002"
  ∧ Py.int (String "028" "3002") = None
  ∧ Py.int (String "009" "3002" +:+ String "160" "") = Some 3002.
Proof. repeat split. Qed.

(** A literal of 4300 digits is read, one of 4301 is refused; underscores
    and the sign do not count, leading zeros do. *)
Example int_digit_cap :
  Py.int (repeat_char "1" (Z.to_nat 4300)) ≠ None
  ∧ Py.int (repeat_char "1" (Z.to_nat 4301)) = None
  ∧ Py.int ("-1_" +:+ repeat_char "1" (Z.to_nat 4299)) ≠ None
  ∧ Py.int (repeat_char "0" (Z.to_nat 4300) +:+ "7") = None.
Proof. repeat split; by vm_compute. Qed.

Lemma app_cons c s t : String c s +:+ t = String c (s +:+ t).
Proof. reflexivity. Qed.

Lemma app_empty t : "" +:+ t = t.
Proof. reflexivity. Qed.





(** *** The LIKE operator *)

Example like_folds_ascii_case :
  like "%lion%" "The Lion, the Witch and the Wardrobe" = true
  ∧ like "%lion%" "The Lord of the Rings" = false.
Proof. split; reflexivity. Qed.

(** Neither the text nor the pattern is read beyond a NUL. *)
Example like_stops_at_nul :
  like "%bar%" ("foo" +:+ String "000" "bar") = false
  ∧ like "%foo%" ("foo" +:+ String "000" "bar") = true
  ∧ like ("%o" +:+ String "000" "x%") "foo" = true
  ∧ like ("%f" +:+ String "000" "x%") "foo" = false.
Proof. repeat split. Qed.

Lemma like_percent p s :
  pattern_compare (String "%" p) s
  = pattern_compare p s || match s with
                | EmptyString => false
                | String _ s' => pattern_compare (String "%" p) s'
                end.
Proof. destruct s; reflexivity. Qed.

Lemma like_char c p s :
  Ascii.eqb c "%" = false →
  pattern_compare (String c p) s
  = match s with
    | EmptyString => false
    | String d s' =>
        (Ascii.eqb c "_" || Ascii.eqb (lower c) (lower d)) && pattern_compare p s'
    end.
Proof. intros H. unfold pattern_compare at 1. rewrite H. fold pattern_compare. reflexivity. Qed.

Lemma like_percent_only s : pattern_compare "%" s = true.
Proof.
  induction s as [|d s IH]; rewrite like_percent; [reflexivity|].
  rewrite IH. apply orb_true_r.
Qed.

Lemma like_skip p pre s :
  pattern_compare (String "%" p) s = true → pattern_compare (String "%" p) (pre +:+ s) = true.
Proof.
  intros H. induction pre as [|d pre IH]; [done|].
  rewrite app_cons, like_percent, IH. apply orb_true_r.
Qed.

Lemma like_percent_spec p s :
  pattern_compare (String "%" p) s = true ↔ ∃ pre post, s = pre +:+ post ∧ pattern_compare p post = true.
Proof.
  split.
  - induction s as [|d s IH]; rewrite like_percent; intros H.
    + rewrite orb_false_r in H. by exists "", "".
    + apply orb_true_iff in H as [H|H].
      * by exists "", (String d s).
      * destruct (IH H) as (pre & post & -> & Hp).
        by exists (String d pre), post.
  - intros (pre & post & -> & Hp). apply like_skip.
    rewrite like_percent, Hp. reflexivity.
Qed.

Lemma like_prefix k mid post :
  fold_case mid = fold_case k → pattern_compare (k +:+ "%") (mid +:+ post) = true.
Proof.
  revert mid. induction k as [|c k IH]; intros mid Hf.
  - rewrite app_empty. apply like_percent_only.
  - destruct mid as [|d mid]; [discriminate|]. simpl in Hf.
    injection Hf as Hc Hf. rewrite !app_cons.
    destruct (Ascii.eqb c "%") eqn:Hpc.
    + apply Ascii.eqb_eq in Hpc as ->.
      rewrite like_percent. apply orb_true_iff. right.
      rewrite like_percent, (IH mid Hf). reflexivity.
    + rewrite like_char by done. rewrite (IH mid Hf), Hc, Ascii.eqb_refl.
      by rewrite orb_true_r.
Qed.

Lemma like_prefix_plain k s :
  plain k = true → pattern_compare (k +:+ "%") s = true →
  ∃ mid post, s = mid +:+ post ∧ fold_case mid = fold_case k.
Proof.
  revert s. induction k as [|c k IH]; intros s Hk H.
  - by exists "", s.
  - simpl in Hk. apply andb_true_iff in Hk as [Hc Hk].
    apply andb_true_iff in Hc as [Hpc Hus].
    apply negb_true_iff in Hpc, Hus.
    rewrite app_cons, like_char in H by done.
    destruct s as [|d s]; [discriminate|].
    rewrite Hus in H. simpl in H. apply andb_true_iff in H as [Hcd H].
    apply Ascii.eqb_eq in Hcd.
    destruct (IH s Hk H) as (mid & post & -> & Hf).
    exists (String d mid), post. split; [done|]. simpl. by rewrite Hf, Hcd.
Qed.

(** For a keyword free of pattern characters, the pattern the program
    builds selects exactly the titles that contain the keyword. *)
Lemma like_contains_ci k t :
  plain k = true →
  pattern_compare ("%" +:+ k +:+ "%") t = true ↔ contains_ci t k.
Proof.
  intros Hk. change ("%" +:+ k +:+ "%") with (String "%" (k +:+ "%")).
  rewrite like_percent_spec. split.
  - intros (pre & rest & -> & H).
    destruct (like_prefix_plain k rest Hk H) as (mid & post & -> & Hf).
    by exists pre, mid, post.
  - intros (pre & mid & post & -> & Hf). exists pre, (mid +:+ post).
    split; [done|]. by apply like_prefix.
Qed.


(** Texts as C strings, and the operator itself. *)

Lemma c_str_idem s : c_str (c_str s) = c_str s.
Proof.
  induction s as [|c s IH]; [done|]. simpl.
  destruct (Ascii.eqb c "000") eqn:Hc; [done|]. simpl. by rewrite Hc, IH.
Qed.

Lemma c_str_app a b : c_str a = a → c_str (a +:+ b) = a +:+ c_str b.
Proof.
  induction a as [|c a IH]; [done|]. intros H. rewrite app_cons.
  simpl in H |- *. destruct (Ascii.eqb c "000"); [discriminate|].
  injection H as H. by rewrite IH.
Qed.

Lemma c_str_parts a b : c_str (a +:+ b) = a +:+ b → c_str a = a ∧ c_str b = b.
Proof.
  induction a as [|c a IH]; [done|]. rewrite app_cons. simpl.
  destruct (Ascii.eqb c "000"); [discriminate|]. intros [= H].
  destruct (IH H) as [Ha Hb]. by rewrite Ha.
Qed.



Lemma c_str_keyword k :
  c_str k = k → c_str ("%" +:+ k +:+ "%") = "%" +:+ k +:+ "%".
Proof.
  intros Hk. change ("%" +:+ k +:+ "%") with (String "%" (k +:+ "%")).
  simpl. by rewrite (c_str_app k "%" Hk).
Qed.

Lemma like_keyword k t :
  c_str k = k →
  like ("%" +:+ k +:+ "%") t = pattern_compare ("%" +:+ k +:+ "%") (c_str t).
Proof. intros Hk. unfold like. by rewrite c_str_keyword. Qed.

Lemma like_blank t : like "%%" t = true.
Proof.
  unfold like. change (c_str "%%") with (String "%" "%").
  rewrite like_percent, like_percent_only. reflexivity.
Qed.

Lemma like_keyword_contains_ci k t :
  c_str k = k → plain k = true →
  like ("%" +:+ k +:+ "%") t = true ↔ contains_ci (c_str t) k.
Proof. intros Hk Hp. rewrite like_keyword by done. by apply like_contains_ci. Qed.


Lemma utf8_length_cons c s :
  utf8_length (String c s)
  = (if (nat_of_ascii c <? 128)%nat then 1 else 2) + utf8_length s.
Proof. reflexivity. Qed.

Lemma utf8_length_app a b :
  utf8_length (a +:+ b) = utf8_length a + utf8_length b.
Proof.
  induction a as [|c a IH]; [done|].
  rewrite app_cons, !utf8_length_cons, IH. lia.
Qed.

Lemma fits_bytes s : fits s = (utf8_length (Py.strip s) <=? 49998).
Proof.
  unfold fits, like_pattern_limit.
  change ("%" +:+ Py.strip s +:+ "%") with (String "%" (Py.strip s +:+ "%")).
  rewrite utf8_length_cons, utf8_length_app.
  change (utf8_length "%") with 1.
  change (if (nat_of_ascii "%" <? 128)%nat then 1 else 2) with 1.
  destruct (utf8_length (Py.strip s) <=? 49998) eqn:H;
    [apply Z.leb_le in H; apply Z.leb_le | apply Z.leb_gt in H; apply Z.leb_gt];
    lia.
Qed.

Lemma fits_blank s : Py.strip s = "" → fits s = true.
Proof. intros Hs. rewrite fits_bytes, Hs. reflexivity. Qed.

Lemma starts_ci_intro k mid post :
  fold_case mid = fold_case k → starts_ci k (mid +:+ post) = true.
Proof.
  revert mid. induction k as [|c k IH]; intros mid Hf; [reflexivity|].
  destruct mid as [|d mid]; [discriminate|]. simpl in Hf.
  injection Hf as Hc Hf. rewrite app_cons. simpl.
  by rewrite Hc, Ascii.eqb_refl, (IH mid Hf).
Qed.

Lemma occurs_ci_intro k t : contains_ci t k → occurs_ci k t = true.
Proof.
  intros (pre & mid & post & -> & Hf). induction pre as [|d pre IH].
  - rewrite app_empty. destruct (mid +:+ post) eqn:E; simpl;
      rewrite <- E, (starts_ci_intro k mid post Hf); reflexivity.
  - rewrite app_cons. simpl. rewrite IH. apply orb_true_r.
Qed.

(** *** Tables and fetched rows *)

Lemma alter_present {V} (f : V → V) (k : Z) (m : gmap Z V) v :
  m !! k = Some v → alter f k m = <[k := f v]> m.
Proof.
  intros H. apply map_eq. intros j. rewrite lookup_alter, lookup_insert.
  case_decide; subst; [by rewrite H | done].
Qed.


Lemma size_filter_list {V} (P : Z * V → Prop) `{!∀ x, Decision (P x)}
    (m : gmap Z V) :
  size (filter P m) = length (filter P (map_to_list m)).
Proof.
  rewrite map_filter_alt, <- length_map_to_list.
  apply Permutation_length, map_to_list_to_map.
  eapply sublist_NoDup; [apply (NoDup_fst_map_to_list m)|].
  apply fmap_sublist, sublist_filter.
Qed.

Lemma length_omap_filter {A B} (f : A → option B) (l : list A) :
  length (omap f l) = length (filter (λ x, is_Some (f x)) l).
Proof.
  induction l as [|x l IH]; [reflexivity|].
  change (omap f (x :: l))
    with (match f x with Some y => y :: omap f l | None => omap f l end).
  destruct (f x) as [y|] eqn:Hf.
  - rewrite filter_cons_True by (rewrite Hf; eauto).
    change (S (length (omap f l)) = S (length (filter (λ x, is_Some (f x)) l))).
    by rewrite IH.
  - rewrite filter_cons_False by (rewrite Hf; by intros [??]). done.
Qed.

Lemma joined_spec ta tb t n c :
  (t, n, c) ∈ joined ta tb ↔
  ∃ id b a, tb !! id = Some b ∧ ta !! authorID b = Some a
            ∧ t = title b ∧ n = name a ∧ c = country a.
Proof.
  unfold joined. rewrite list_elem_of_omap. split.
  - intros ([id b] & Hin & Hf). apply elem_of_map_to_list in Hin. simpl in Hf.
    destruct (ta !! authorID b) as [a|] eqn:Ha; [|discriminate].
    simpl in Hf. inversion Hf; subst. by exists id, b, a.
  - intros (id & b & a & Hb & Ha & -> & -> & ->). exists (id, b). split.
    + by apply elem_of_map_to_list.
    + simpl. by rewrite Ha.
Qed.

Lemma search_report_none rows : search_report rows = [NoBooksFound] ↔ rows = [].
Proof. destruct rows; simpl; split; intros H; done. Qed.

Lemma matches_spec s tb id b :
  (id, b) ∈ matches s tb ↔
  tb !! id = Some b ∧ like ("%" +:+ Py.strip s +:+ "%") (title b) = true.
Proof.
  unfold matches. rewrite list_elem_of_filter, elem_of_map_to_list. simpl.
  tauto.
Qed.

Lemma matches_blank s tb : Py.strip s = "" → matches s tb = map_to_list tb.
Proof.
  intros Hs. unfold matches. rewrite Hs.
  induction (map_to_list tb) as [|r l IH]; [reflexivity|].
  rewrite filter_cons_True, IH; [reflexivity|]. apply like_blank.
Qed.

(** *** Running the operations *)

Lemma for_each_print {A} (body : A → M unit) (f : A → msg) l i out dk cn :
  (∀ x, body x = print (f x)) →
  for_each l body (World i out dk cn)
  = (Return tt, World i (out ++ map f l) dk cn).
Proof.
  intros Hbody. revert out. induction l as [|x l IH]; intros out; simpl.
  - by rewrite app_nil_r.
  - unfold bind. rewrite Hbody. unfold print. simpl. rewrite IH.
    by rewrite <- app_assoc.
Qed.

Lemma count_zero (n : nat) : (Z.of_nat n =? 0) = (n =? 0)%nat.
Proof. destruct n; reflexivity. Qed.

Lemma seed_authors_run i out dk tb :
  executemany insert_author seed_authors (World i out dk (Db (Some ∅) tb))
  = (Return tt, World i out dk (Db (Some seed_author_table) tb)).
Proof. vm_compute. reflexivity. Qed.

Lemma seed_books_run i out dk ta :
  executemany insert_book seed_books (World i out dk (Db ta (Some ∅)))
  = (Return tt, World i out dk (Db ta (Some seed_book_table))).
Proof. vm_compute. reflexivity. Qed.

Lemma populate_tables_runs i out ta tb :
  populate_tables (World i out (Db (Some ta) (Some tb)) (Db (Some ta) (Some tb)))
  = (Return tt,
     World i out (initialized (Db (Some ta) (Some tb)))
                 (initialized (Db (Some ta) (Some tb)))).
Proof.
  unfold populate_tables, initialized, count_author, count_book, seed_if_empty.
  run. rewrite !count_zero.
  destruct (size ta =? 0)%nat eqn:Ha.
  - apply Nat.eqb_eq, map_size_empty_iff in Ha as ->.
    rewrite seed_authors_run. run. rewrite count_zero.
    destruct (size tb =? 0)%nat eqn:Hb; [|reflexivity].
    apply Nat.eqb_eq, map_size_empty_iff in Hb as ->.
    rewrite seed_books_run. reflexivity.
  - run. rewrite count_zero.
    destruct (size tb =? 0)%nat eqn:Hb; [|reflexivity].
    apply Nat.eqb_eq, map_size_empty_iff in Hb as ->.
    rewrite seed_books_run. reflexivity.
Qed.

Lemma create_tables_runs i out d :
  create_tables (World i out d d)
  = (Return tt,
     World i out (Db (Some (default ∅ (author d))) (Some (default ∅ (book d))))
                 (Db (Some (default ∅ (author d))) (Some (default ∅ (book d))))).
Proof.
  unfold create_tables, create_author, create_book.
  destruct d as [[ta|] [tb|]]; run; reflexivity.
Qed.

Lemma initialize_runs i out d :
  initialize (World i out d d)
  = (Return tt, World i out (initialized d) (initialized d)).
Proof.
  unfold initialize, bind. rewrite create_tables_runs, populate_tables_runs.
  destruct d as [[ta|] [tb|]]; reflexivity.
Qed.

Lemma seed_if_empty_twice {V} (seed : gmap Z V) t :
  seed_if_empty seed (Some (seed_if_empty seed t)) = seed_if_empty seed t.
Proof.
  unfold seed_if_empty. destruct t as [t|].
  - destruct (size t =? 0)%nat eqn:Ht.
    + destruct (size seed =? 0)%nat; reflexivity.
    + rewrite Ht. reflexivity.
  - destruct (size seed =? 0)%nat; reflexivity.
Qed.

Lemma initialized_twice d : initialized (initialized d) = initialized d.
Proof.
  unfold initialized. cbn [author book]. by rewrite !seed_if_empty_twice.
Qed.


Lemma update_author_runs s sn sc i out ta tb id b a :
  Py.int s = Some id → in_int64 id = true → in_int64 (authorID b) = true →
  tb !! id = Some b → ta !! authorID b = Some a →
  update_book (World (s :: "4" :: sn :: sc :: i) out
                 (Db (Some ta) (Some tb)) (Db (Some ta) (Some tb)))
  = (Return tt,
     World i (out ++ update_menu ++ [CurrentAuthor (name a) (country a); Updated])
       (Db (Some (alter (λ _, AuthorRow (Py.or_else (Py.strip sn) (name a))
                                        (Py.or_else (Py.strip sc) (country a)))
                        (authorID b) ta)) (Some tb))
       (Db (Some (alter (λ _, AuthorRow (Py.or_else (Py.strip sn) (name a))
                                        (Py.or_else (Py.strip sc) (country a)))
                        (authorID b) ta)) (Some tb))).
Proof.
  intros Hs Hi Ha Hb Hau.
  unfold update_book, select_author_of_book, update_author. run.
  rewrite Hs. run. rewrite Hi. run. rewrite Hb. simpl. rewrite Hau. run.
  rewrite Ha. run. printed.
Qed.

(** An id that parses but does not fit the engine's INTEGER is refused
    when the statement is bound; the handler reports it and the store
    stays as it was. *)
Lemma delete_book_rejects s id i out ta tb :
  Py.int s = Some id → in_int64 id = false →
  delete_book (World (s :: i) out (Db ta (Some tb)) (Db ta (Some tb)))
  = (Return tt,
     World i (out ++ [ErrorDeletingBook OverflowError])
       (Db ta (Some tb)) (Db ta (Some tb))).
Proof.
  intros Hs Hr. unfold delete_book, Sql.delete_book. run. rewrite Hs. run.
  rewrite Hr. run. reflexivity.
Qed.

Lemma update_book_rejects s id choice line f i out ta tb :
  Py.int s = Some id → in_int64 id = false → field_update choice line f →
  update_book (World (s :: choice :: line :: i) out
                 (Db ta (Some tb)) (Db ta (Some tb)))
  = (Return tt,
     World i (out ++ update_menu ++ [ErrorUpdatingBook OverflowError])
       (Db ta (Some tb)) (Db ta (Some tb))).
Proof.
  intros Hs Hr Hf. unfold update_book. run. rewrite Hs. run.
  destruct Hf as [sq q Hq Hqr | t | sa a Ha Har]; simpl.
  - unfold update_qty. run. rewrite Hq. run. rewrite Hqr, Hr. run. printed.
  - unfold update_title. run. rewrite Hr. run. printed.
  - unfold update_authorID. run. rewrite Ha. run. rewrite Har, Hr. run.
    printed.
Qed.

Lemma search_books_runs s i out ta tb :
  fits s = true →
  search_books (World (s :: i) out (Db ta (Some tb)) (Db ta (Some tb)))
  = (Return tt,
     World i (out ++ search_report (matches s tb))
       (Db ta (Some tb)) (Db ta (Some tb))).
Proof.
  intros Hf. unfold fits in Hf.
  unfold search_books, select_books_like. run.
  rewrite Z.ltb_antisym, Hf, andb_false_r. run. fold (matches s tb).
  destruct (matches s tb) as [|r rows] eqn:Hm; run; [reflexivity|].
  rewrite (for_each_print _ search_row) by reflexivity. run. printed.
Qed.

(** On an empty table no pattern is evaluated, however long. *)
Lemma search_books_empty s i out ta :
  search_books (World (s :: i) out (Db ta (Some ∅)) (Db ta (Some ∅)))
  = (Return tt,
     World i (out ++ [NoBooksFound]) (Db ta (Some ∅)) (Db ta (Some ∅))).
Proof. reflexivity. Qed.

(** On a table with rows, a pattern over the limit makes the statement
    fail, and nothing catches the exception. *)
Lemma search_books_refuses s i out ta tb :
  tb ≠ ∅ → fits s = false →
  search_books (World (s :: i) out (Db ta (Some tb)) (Db ta (Some tb)))
  = (Raise OperationalError,
     World i out (Db ta (Some tb)) (Db ta (Some tb))).
Proof.
  intros Hne Hf. unfold fits in Hf.
  unfold search_books, select_books_like. run.
  rewrite Z.ltb_antisym, Hf.
  destruct (size tb =? 0)%nat eqn:Hs.
  { apply Nat.eqb_eq, map_size_empty_iff in Hs. done. }
  reflexivity.
Qed.

(** The three cases together. *)
Lemma search_books_cases s i out ta tb :
  search_books (World (s :: i) out (Db ta (Some tb)) (Db ta (Some tb)))
  = if negb (size tb =? 0)%nat && negb (fits s)
    then (Raise OperationalError,
          World i out (Db ta (Some tb)) (Db ta (Some tb)))
    else (Return tt,
          World i (out ++ search_report (matches s tb))
            (Db ta (Some tb)) (Db ta (Some tb))).
Proof.
  destruct (fits s) eqn:Hf.
  - rewrite andb_false_r. by apply search_books_runs.
  - rewrite andb_true_r. destruct (size tb =? 0)%nat eqn:Hs; simpl.
    + apply Nat.eqb_eq, map_size_empty_iff in Hs as ->.
      rewrite search_books_empty. unfold matches.
      by rewrite map_to_list_empty.
    + apply search_books_refuses; [|done]. intros ->.
      by rewrite map_size_empty in Hs.
Qed.

(** The limit on the seed data: a keyword of 49998 bytes is searched for,
    one of 49999 bytes makes the statement fail, unless the table is
    empty. *)
Example search_books_pattern_limit :
  (search_books (at_rest [repeat_char "a" (Z.to_nat 49998)] seeded)).1
  = Return tt
  ∧ (search_books (at_rest [repeat_char "a" (Z.to_nat 49999)] seeded)).1
    = Raise OperationalError
  ∧ (search_books (at_rest [repeat_char "a" (Z.to_nat 49999)]
                     (Db (Some seed_author_table) (Some ∅)))).1
    = Return tt.
Proof. repeat split; by vm_compute. Qed.

Lemma view_all_books_runs i out ta tb :
  view_all_books (World i out (Db (Some ta) (Some tb)) (Db (Some ta) (Some tb)))
  = (Return tt,
     World i (out ++ BookDetails :: map book_detail (joined ta tb))
       (Db (Some ta) (Some tb)) (Db (Some ta) (Some tb))).
Proof.
  unfold view_all_books, select_books_join. run. fold (joined ta tb).
  rewrite (for_each_print _ book_detail) by (by intros [[??]?]). run. printed.
Qed.

Lemma enter_book_returns w : ∃ w', enter_book w = (Return tt, w').
Proof.
  unfold enter_book, try_except.
  match goal with |- context [match ?b w with _ => _ end] =>
    destruct (b w) as [[[]|e] w'] end; unfold print; eauto.
Qed.

Lemma update_book_returns w : ∃ w', update_book w = (Return tt, w').
Proof.
  unfold update_book, try_except.
  match goal with |- context [match ?b w with _ => _ end] =>
    destruct (b w) as [[[]|e] w'] end; unfold print; eauto.
Qed.

Lemma delete_book_returns w : ∃ w', delete_book w = (Return tt, w').
Proof.
  unfold delete_book, try_except.
  match goal with |- context [match ?b w with _ => _ end] =>
    destruct (b w) as [[[]|e] w'] end; unfold print; eauto.
Qed.

(** *** Stored integers fit the engine's INTEGER *)

Lemma seeded_storable : storable seeded.
Proof.
  split.
  - intros ta id r [= <-] H.
    apply elem_of_map_to_list in H. vm_compute in H.
    repeat (apply elem_of_cons in H as [H|H]; [by injection H as -> _|]).
    by apply elem_of_nil in H.
  - intros tb id b [= <-] H.
    apply elem_of_map_to_list in H. vm_compute in H.
    repeat (apply elem_of_cons in H as [H|H];
            [injection H as -> ->; by vm_compute|]).
    by apply elem_of_nil in H.
Qed.

Lemma storable_set_book ta tb tb' :
  storable (Db ta (Some tb)) →
  (∀ id b, tb' !! id = Some b →
     in_int64 id = true ∧ in_int64 (authorID b) = true
     ∧ in_int64 (qty b) = true) →
  storable (Db ta (Some tb')).
Proof.
  intros [Ha _] Hb. split.
  - intros ta' id r H. by apply Ha.
  - intros ? id b [= <-]. apply Hb.
Qed.

Lemma storable_set_author ta ta' tb :
  storable (Db (Some ta) tb) →
  (∀ id r, ta' !! id = Some r → in_int64 id = true) →
  storable (Db (Some ta') tb).
Proof.
  intros [_ Hb] Ha. split.
  - intros ? id r [= <-]. apply Ha.
  - intros tb' id b H. by apply Hb.
Qed.

Lemma storable_insert_book ta tb id t a q :
  storable (Db ta (Some tb)) →
  in_int64 id = true → in_int64 a = true → in_int64 q = true →
  storable (Db ta (Some (<[id := BookRow t a q]> tb))).
Proof.
  intros Hd Hi Ha Hq. apply (storable_set_book ta tb); [done|].
  intros j b. rewrite lookup_insert. case_decide; subst.
  - by intros [= <-].
  - intros Hb. by apply (proj2 Hd tb j b).
Qed.

Lemma storable_alter_book ta tb id (f : book_row → book_row) :
  storable (Db ta (Some tb)) →
  (∀ b, in_int64 (authorID b) = true → in_int64 (qty b) = true →
        in_int64 (authorID (f b)) = true ∧ in_int64 (qty (f b)) = true) →
  storable (Db ta (Some (alter f id tb))).
Proof.
  intros Hd Hf. apply (storable_set_book ta tb); [done|].
  intros j b. rewrite lookup_alter. case_decide; subst.
  - destruct (tb !! j) as [b0|] eqn:Hb0; [|done]. intros [= <-].
    destruct (proj2 Hd tb j b0 eq_refl Hb0) as (? & ? & ?).
    split; [done|]. by apply Hf.
  - intros Hb. by apply (proj2 Hd tb j b).
Qed.

Lemma storable_delete_book ta tb id :
  storable (Db ta (Some tb)) → storable (Db ta (Some (delete id tb))).
Proof.
  intros Hd. apply (storable_set_book ta tb); [done|].
  intros j b Hb. apply lookup_delete_Some in Hb as [_ Hb].
  by apply (proj2 Hd tb j b).
Qed.

Lemma storable_alter_author ta tb id (f : author_row → author_row) :
  storable (Db (Some ta) tb) → storable (Db (Some (alter f id ta)) tb).
Proof.
  intros Hd. apply (storable_set_author ta); [done|].
  intros j r. rewrite lookup_alter. case_decide; subst.
  - destruct (ta !! j) as [r0|] eqn:Hr0; [|done]. intros _.
    by apply (proj1 Hd ta j r0).
  - intros Hr. by apply (proj1 Hd ta j r).
Qed.

Lemma storable_initialized d : storable d → storable (initialized d).
Proof.
  intros [Ha Hb]. destruct seeded_storable as [Hsa Hsb].
  unfold initialized, seed_if_empty. split.
  - intros ? id r [= <-].
    destruct (author d) as [ta|] eqn:Hta;
      [destruct (size ta =? 0)%nat|]; eauto.
  - intros ? id b [= <-].
    destruct (book d) as [tb|] eqn:Htb;
      [destruct (size tb =? 0)%nat|]; eauto.
Qed.

Lemma initialize_storable i out d c :
  storable d → storable (disk (initialize (World i out d c)).2).
Proof.
  intros Hd.
  change (initialize (World i out d c)) with (initialize (World i out d d)).
  rewrite initialize_runs. by apply storable_initialized.
Qed.

Lemma enter_book_storable w :
  storable (disk w) → storable (disk (enter_book w).2).
Proof.
  destruct w as [[|s1 [|s2 [|s3 [|s4 i]]]] out [ta tb] cn]; simpl; intros Hd;
    unfold enter_book, insert_book; paths; simpl; try done.
  by apply storable_insert_book.
Qed.

Lemma update_book_storable w :
  storable (disk w) → storable (disk (update_book w).2).
Proof.
  destruct w as [[|s1 [|s2 [|s3 [|s4 i]]]] out [ta tb] cn]; simpl; intros Hd;
    unfold update_book, update_qty, update_title, update_authorID,
      select_author_of_book, update_author;
    paths; simpl; try done;
    try (apply storable_alter_book; [done|]; by intros b ??);
    try (by apply storable_alter_author).
Qed.

Lemma delete_book_storable w :
  storable (disk w) → storable (disk (delete_book w).2).
Proof.
  destruct w as [[|s i] out [ta tb] cn]; simpl; intros Hd;
    unfold delete_book, Sql.delete_book; paths; simpl; try done.
  by apply storable_delete_book.
Qed.

Lemma search_books_disk w : disk (search_books w).2 = disk w.
Proof.
  destruct w as [[|s i] out [ta [tb|]] cn]; [reflexivity..| |reflexivity].
  unfold search_books, select_books_like. run.
  destruct (negb _ && _); [reflexivity|]. run.
  destruct (filter _ _) as [|r rows]; [reflexivity|]. run.
  rewrite (for_each_print _ search_row) by reflexivity. reflexivity.
Qed.

Lemma view_all_books_disk w : disk (view_all_books w).2 = disk w.
Proof.
  destruct w as [i out [[ta|] [tb|]] cn]; try reflexivity.
  unfold view_all_books, select_books_join. run.
  rewrite (for_each_print _ book_detail) by (by intros [[??]?]). reflexivity.
Qed.

(** ** The operations, claim by claim *)

(** Claim C1.  Storage initialization ([create_tables] followed by
    [populate_tables]) always succeeds and is idempotent.  Run once or more
    on a fresh file it leaves exactly the five seed authors (ids 1290,
    8937, 2356, 6380, 5620) and the five seed books (ids 3001 to 3005).  A
    table receives the seed rows only when it is absent or empty; a table
    holding at least one row, wherever that row came from, is left exactly
    as it was. *)
Theorem initialize_idempotent :
  (∀ i out d,
     initialize (World i out d d)
     = (Return tt, World i out (initialized d) (initialized d)))
  ∧ (∀ d, initialized (initialized d) = initialized d)
  ∧ (∀ n i out,
       Nat.iter (S n) (λ w, (initialize w).2) (World i out no_tables no_tables)
       = World i out seeded seeded)
  ∧ dom seed_author_table = {[1290; 8937; 2356; 6380; 5620]}
  ∧ dom seed_book_table = {[3001; 3002; 3003; 3004; 3005]}
  ∧ (∀ d t, author d = Some t → (0 < size t)%nat →
       author (initialized d) = Some t)
  ∧ (∀ d t, book d = Some t → (0 < size t)%nat →
       book (initialized d) = Some t)
  ∧ (∀ d, author d = None ∨ author d = Some ∅ →
       author (initialized d) = Some seed_author_table)
  ∧ (∀ d, book d = None ∨ book d = Some ∅ →
       book (initialized d) = Some seed_book_table).
Proof.
  split; [exact initialize_runs|].
  split; [exact initialized_twice|].
  split.
  { intros n i out. induction n as [|n IH].
    - simpl. rewrite initialize_runs. reflexivity.
    - rewrite Nat.iter_succ, IH, initialize_runs. reflexivity. }
  split; [by vm_compute|]. split; [by vm_compute|].
  split; [|split; [|split]].
  - intros d t H Hn. unfold initialized, seed_if_empty. simpl. rewrite H.
    destruct (size t); [lia | reflexivity].
  - intros d t H Hn. unfold initialized, seed_if_empty. simpl. rewrite H.
    destruct (size t); [lia | reflexivity].
  - intros d [H|H]; unfold initialized; simpl; rewrite H; reflexivity.
  - intros d [H|H]; unfold initialized; simpl; rewrite H; reflexivity.
Qed.

(** C1 on a store where a sixth author was added by hand and the book
    table was lost: the authors stay as they are, the books are seeded. *)
Lemma initialize_idempotent_witness :
  (0 < size (<[7000%Z := AuthorRow "Jane Austen" "England"]>
               seed_author_table))%nat
  ∧ author (initialized
              (Db (Some (<[7000 := AuthorRow "Jane Austen" "England"]>
                           seed_author_table))
                  (Some seed_book_table)))
    = Some (<[7000 := AuthorRow "Jane Austen" "England"]> seed_author_table)
  ∧ book (initialized
            (Db (Some (<[7000 := AuthorRow "Jane Austen" "England"]>
                         seed_author_table))
                None))
    = Some seed_book_table.
Proof.
  destruct initialize_idempotent as (_ & _ & _ & _ & _ & Ha & _ & _ & Hb).
  split; [vm_compute; lia|]. split.
  - apply Ha; [reflexivity | vm_compute; lia].
  - apply Hb. left. reflexivity.
Defined.




(** Claim C3.  [enter_book], [update_book] and [delete_book] turn every
    exception into a printed message and return normally, in every world.
    [search_books] and [view_all_books] have no handler: at end of input,
    or on a file without the [book] table, the exception leaves the
    operation. *)
Theorem search_and_view_let_exceptions_through :
  (∀ w, ∃ w', enter_book w = (Return tt, w'))
  ∧ (∀ w, ∃ w', update_book w = (Return tt, w'))
  ∧ (∀ w, ∃ w', delete_book w = (Return tt, w'))
  ∧ (∀ out d c,
       search_books (World [] out d c) = (Raise EOFError, World [] out d c))
  ∧ (∀ s i out ta c,
       search_books (World (s :: i) out (Db ta None) c)
       = (Raise OperationalError, World i out (Db ta None) (Db ta None)))
  ∧ (∀ i out ta c,
       view_all_books (World i out (Db ta None) c)
       = (Raise OperationalError, World i out (Db ta None) (Db ta None)))
  ∧ search_books (World ["lion"] [] no_tables no_tables)
    = (Raise OperationalError, World [] [] no_tables no_tables)
  ∧ view_all_books (World [] [] no_tables no_tables)
    = (Raise OperationalError, World [] [] no_tables no_tables).
Proof.
  split; [exact enter_book_returns|].
  split; [exact update_book_returns|].
  split; [exact delete_book_returns|].
  repeat split.
Qed.







(** Claim C6, amended.  For a keyword that, once stripped of surrounding
    whitespace, holds no [%], no [_] and no NUL and makes a pattern within
    the engine's limit of 50000 bytes, [search_books] lists exactly the
    rows of [book] whose title, read up to its first NUL, contains the
    stripped keyword up to ASCII case, each once, with id, title, author
    id and quantity; it prints the not-found message exactly when no title
    does; it never changes the store.  On the seed data, "lion" selects
    "The Lion, the Witch and the Wardrobe" and nothing else. *)
Theorem search_books_by_substring s i out ta tb :
  plain (Py.strip s) = true →
  c_str (Py.strip s) = Py.strip s →
  fits s = true →
  search_books (World (s :: i) out (Db ta (Some tb)) (Db ta (Some tb)))
  = (Return tt,
     World i (out ++ search_report (matches s tb))
       (Db ta (Some tb)) (Db ta (Some tb)))
  ∧ NoDup (matches s tb)
  ∧ (∀ id b, (id, b) ∈ matches s tb ↔
             tb !! id = Some b ∧ contains_ci (c_str (title b)) (Py.strip s))
  ∧ (search_report (matches s tb) = [NoBooksFound] ↔
     ∀ id b, tb !! id = Some b → ¬ contains_ci (c_str (title b)) (Py.strip s))
  ∧ matches "lion" seed_book_table
    = [(3003, BookRow "The Lion, the Witch and the Wardrobe" 2356 25)].
Proof.
  intros Hk Hnul Hfit.
  assert (Hspec : ∀ id b, (id, b) ∈ matches s tb ↔
                    tb !! id = Some b
                    ∧ contains_ci (c_str (title b)) (Py.strip s)).
  { intros id b. rewrite matches_spec, like_keyword_contains_ci by done.
    tauto. }
  split; [by apply search_books_runs|].
  split; [apply NoDup_filter, NoDup_map_to_list|].
  split; [exact Hspec|]. split; [|by vm_compute].
  rewrite search_report_none. split.
  - intros Hnil id b Hb Hc.
    assert (Hin : (id, b) ∈ matches s tb) by (by apply Hspec).
    rewrite Hnil in Hin. by apply elem_of_nil in Hin.
  - intros Hnone. destruct (matches s tb) as [|[id b] rows] eqn:Hm; [done|].
    exfalso. assert (Hin : (id, b) ∈ (id, b) :: rows) by left.
    apply Hspec in Hin as [Hb Hc]. by apply (Hnone id b).
Qed.

(** C6 on the seeded store with the keyword "lion". *)
Lemma search_books_by_substring_witness :
  plain (Py.strip "lion") = true ∧ fits "lion" = true ∧
  search_books (World ["lion"] [] seeded seeded)
  = (Return tt,
     World [] (search_report (matches "lion" seed_book_table)) seeded seeded).
Proof.
  split; [reflexivity|]. split; [reflexivity|].
  apply (search_books_by_substring "lion" [] [] (Some seed_author_table)
           seed_book_table); reflexivity.
Defined.

(** C6 as first stated fails: the keyword " lion " selects a title that
    does not contain it, because the keyword is stripped first; and the
    keyword "_" selects a title without any underscore, because it is
    read as a pattern character. *)
Lemma search_books_keyword_not_contained :
  matches " lion " seed_book_table
  = [(3003, BookRow "The Lion, the Witch and the Wardrobe" 2356 25)]
  ∧ ¬ contains_ci "The Lion, the Witch and the Wardrobe" " lion "
  ∧ (3001, BookRow "A Tale of Two Cities" 1290 30) ∈ matches "_" seed_book_table
  ∧ ¬ contains_ci "A Tale of Two Cities" "_".
Proof.
  split; [by vm_compute|]. split.
  { intros H. apply occurs_ci_intro in H. vm_compute in H. discriminate. }
  split.
  { apply matches_spec. split; by vm_compute. }
  intros H. apply occurs_ci_intro in H. vm_compute in H. discriminate.
Qed.

(** Claim C7.  [view_all_books] prints, for every book whose author id is
    the id of an author, the book's title with that author's name and
    country, one entry per such book, and nothing for the other books; it
    never changes the store. *)
Theorem view_all_books_inner_join i out ta tb :
  view_all_books (World i out (Db (Some ta) (Some tb)) (Db (Some ta) (Some tb)))
  = (Return tt,
     World i (out ++ BookDetails :: map book_detail (joined ta tb))
       (Db (Some ta) (Some tb)) (Db (Some ta) (Some tb)))
  ∧ (∀ t n c,
       (t, n, c) ∈ joined ta tb ↔
       ∃ id b a, tb !! id = Some b ∧ ta !! authorID b = Some a
                 ∧ t = title b ∧ n = name a ∧ c = country a)
  ∧ length (joined ta tb)
    = size (filter (λ r, is_Some (ta !! authorID r.2)) tb).
Proof.
  split; [apply view_all_books_runs|]. split; [apply joined_spec|].
  unfold joined. rewrite length_omap_filter, size_filter_list.
  f_equal. apply list_filter_iff. intros [id b]. simpl.
  destruct (ta !! authorID b); simpl; split; intros [??]; eauto; discriminate.
Qed.




(** Claim C9, amended.  [delete_book] with an id that parses and fits
    SQLite's INTEGER reports success and removes the row with that id if
    there is one; all other rows of [book] and the whole [author] table
    are untouched, and when no row has the id the store is unchanged. *)
Theorem delete_book_removes_only_that_book s id i out ta tb :
  Py.int s = Some id → in_int64 id = true →
  delete_book (World (s :: i) out (Db (Some ta) (Some tb)) (Db (Some ta) (Some tb)))
  = (Return tt,
     World i (out ++ [Deleted id])
       (Db (Some ta) (Some (delete id tb))) (Db (Some ta) (Some (delete id tb))))
  ∧ delete id tb !! id = None
  ∧ (∀ j, j ≠ id → delete id tb !! j = tb !! j)
  ∧ (tb !! id = None → delete id tb = tb).
Proof.
  intros Hs Hr. repeat split.
  - unfold delete_book, Sql.delete_book. run. rewrite Hs. run. rewrite Hr. run.
    reflexivity.
  - apply lookup_delete_eq.
  - intros j Hj. by apply lookup_delete_ne.
  - apply delete_id.
Qed.

(** C9 on the seeded store: book 3002 is deleted. *)
Lemma delete_book_removes_only_that_book_witness :
  Py.int "3002" = Some 3002 ∧ in_int64 3002 = true ∧
  delete_book (World ["3002"] [] seeded seeded)
  = (Return tt,
     World [] [Deleted 3002]
       (Db (Some seed_author_table) (Some (delete 3002 seed_book_table)))
       (Db (Some seed_author_table) (Some (delete 3002 seed_book_table)))).
Proof.
  split; [reflexivity|]. split; [reflexivity|].
  apply (delete_book_removes_only_that_book "3002" 3002 [] []
           seed_author_table seed_book_table); reflexivity.
Defined.

(** C9 as first stated fails: 2^63 parses as an integer and matches no book,
    yet an error is reported instead of success. *)
Lemma delete_book_out_of_range :
  Py.int "9223372036854775808" = Some (2 ^ 63) ∧
  seed_book_table !! (2 ^ 63) = None ∧
  delete_book (at_rest ["9223372036854775808"] seeded)
  = (Return tt, World [] [ErrorDeletingBook OverflowError] seeded seeded).
Proof. vm_compute. auto. Qed.

(** Claim C10.  With a keyword that is empty once stripped, [search_books]
    lists every row of [book]; the not-found message is printed exactly
    when the table is empty. *)
Theorem search_books_blank_keyword s i out ta tb :
  Py.strip s = "" →
  search_books (World (s :: i) out (Db ta (Some tb)) (Db ta (Some tb)))
  = (Return tt,
     World i (out ++ search_report (map_to_list tb))
       (Db ta (Some tb)) (Db ta (Some tb)))
  ∧ (∀ id b, (id, b) ∈ map_to_list tb ↔ tb !! id = Some b)
  ∧ (search_report (map_to_list tb) = [NoBooksFound] ↔ tb = ∅).
Proof.
  intros Hs. split; [|split].
  - rewrite search_books_runs, (matches_blank s tb Hs) by by apply fits_blank.
    reflexivity.
  - intros id b. apply elem_of_map_to_list.
  - rewrite search_report_none. apply map_to_list_empty_iff.
Qed.

(** C10 on the seeded store with a keyword of three blanks. *)
Lemma search_books_blank_keyword_witness :
  Py.strip "   " = "" ∧
  search_books (World ["   "] [] seeded seeded)
  = (Return tt,
     World [] (search_report (map_to_list seed_book_table)) seeded seeded).
Proof.
  split; [reflexivity|].
  apply (search_books_blank_keyword "   " [] [] (Some seed_author_table)
           seed_book_table).
  reflexivity.
Defined.

(** ** Further properties *)

(** *** Each operation in an arbitrary world *)

Lemma enter_book_shape w :
  ∃ w', enter_book w = (Return tt, w')
    ∧ stdin w' `suffix_of` stdin w
    ∧ ((∃ e, stdout w' = (stdout w ++ [ErrorAddingBook e])%list
             ∧ disk w' = disk w)
       ∨ (∃ tb id r,
            book (disk w) = Some tb ∧ tb !! id = None
            ∧ stdout w' = (stdout w ++ [BookAdded (title r)])%list
            ∧ disk w' = Db (author (disk w)) (Some (<[id := r]> tb)))).
Proof.
  destruct w as [[|s1 [|s2 [|s3 [|s4 i]]]] out [ta tb] cn];
    unfold enter_book, insert_book; paths; simpl;
    (eexists; split; [reflexivity|]); simpl;
    (split; [suffix_tail|]);
    try (left; eexists; split; reflexivity).
  right. eexists _, _, (BookRow _ _ _). simpl. eauto.
Qed.

Lemma delete_book_shape w :
  ∃ w', delete_book w = (Return tt, w')
    ∧ stdin w' `suffix_of` stdin w
    ∧ ((∃ e, stdout w' = (stdout w ++ [ErrorDeletingBook e])%list
             ∧ disk w' = disk w)
       ∨ (∃ tb id,
            book (disk w) = Some tb
            ∧ stdout w' = (stdout w ++ [Deleted id])%list
            ∧ disk w' = Db (author (disk w)) (Some (delete id tb)))).
Proof.
  destruct w as [[|s i] out [ta tb] cn];
    unfold delete_book, Sql.delete_book; paths; simpl;
    (eexists; split; [reflexivity|]); simpl;
    (split; [suffix_tail|]);
    try (left; eexists; split; reflexivity).
  right. eauto.
Qed.

Lemma update_book_shape w :
  ∃ w' l, update_book w = (Return tt, w')
    ∧ stdin w' `suffix_of` stdin w
    ∧ stdout w' = (stdout w ++ l)%list
    ∧ ((∃ e, last l = Some (ErrorUpdatingBook e) ∧ disk w' = disk w)
       ∨ (last l = Some Updated
          ∧ (disk w' = disk w
             ∨ (∃ tb f id,
                  book (disk w) = Some tb
                  ∧ disk w' = Db (author (disk w)) (Some (alter f id tb)))
             ∨ (∃ ta f id,
                  author (disk w) = Some ta
                  ∧ disk w' = Db (Some (alter f id ta)) (book (disk w)))))).
Proof.
  destruct w as [[|s1 [|s2 [|s3 [|s4 i]]]] out [ta tb] cn];
    unfold update_book, update_qty, update_title, update_authorID,
      select_author_of_book, update_author;
    paths; simpl; rewrite <- ?app_assoc; simpl;
    (eexists _, _; split; [reflexivity|]); simpl;
    (split; [suffix_tail|]);
    (split; [reflexivity|]); simpl;
    first [ left; eexists; split; reflexivity
          | right; split; [reflexivity|]; eauto 8 ].
Qed.





(** *** Tables stay in place *)

Lemma enter_book_has_tables w :
  has_tables (disk w) → has_tables (disk (enter_book w).2).
Proof.
  destruct (enter_book_shape w) as (w' & -> & _ & H). simpl.
  destruct H as [(e & _ & ->)|H]; [done|].
  destruct H as (tb & id & r & Hb & _ & _ & ->). intros [Ha _].
  split; [done | by eexists].
Qed.

Lemma delete_book_has_tables w :
  has_tables (disk w) → has_tables (disk (delete_book w).2).
Proof.
  destruct (delete_book_shape w) as (w' & -> & _ & H). simpl.
  destruct H as [(e & _ & ->)|H]; [done|].
  destruct H as (tb & id & Hb & _ & ->). intros [Ha _].
  split; [done | by eexists].
Qed.

Lemma update_book_has_tables w :
  has_tables (disk w) → has_tables (disk (update_book w).2).
Proof.
  destruct (update_book_shape w) as (w' & l & -> & _ & _ & H). simpl.
  destruct H as [(e & _ & ->)|(_ & [->|[H|H]])]; try done.
  - destruct H as (tb & f & id & _ & ->). intros [Ha _].
    split; [done | by eexists].
  - destruct H as (ta & f & id & _ & ->). intros [_ Hb].
    split; [by eexists | done].
Qed.

(** *** The menu loop *)







Lemma menu_loop_step fuel choice rest sh d :
  menu_loop (S fuel) (Session (choice :: rest) sh d)
  = match dispatch choice with
    | Some op =>
        match call op (Session rest (sh ++ menu) d) with
        | (Return _, st') => menu_loop fuel st'
        | (Raise e, st') => Some (Raise e, st')
        end
    | None =>
        if String.eqb choice "0"
        then Some (Return tt, Session rest ((sh ++ menu) ++ [Goodbye]) d)
        else menu_loop fuel (Session rest ((sh ++ menu) ++ [InvalidSelection]) d)
    end.
Proof.
  unfold dispatch. cbn [menu_loop show typed shown file].
  repeat (destruct (String.eqb choice _); [reflexivity|]). reflexivity.
Qed.

Lemma menu_loop_eof fuel sh d :
  menu_loop (S fuel) (Session [] sh d)
  = Some (Raise EOFError, Session [] (sh ++ menu) d).
Proof. reflexivity. Qed.






Lemma main_runs fuel st :
  main fuel st
  = menu_loop fuel (Session (typed st) (shown st) (initialized (file st))).
Proof.
  unfold main, call. rewrite create_tables_runs. cbn [typed shown file stdin
    stdout disk map]. rewrite app_nil_r, populate_tables_runs.
  cbn [typed shown file stdin stdout disk map]. rewrite app_nil_r.
  unfold initialized at 2. cbn [author book default].
  change (Db (Some (seed_if_empty seed_author_table
                      (Some (default ∅ (author (file st))))))
             (Some (seed_if_empty seed_book_table
                      (Some (default ∅ (book (file st)))))))
    with (initialized (Db (Some (default ∅ (author (file st))))
                          (Some (default ∅ (book (file st)))))).
  f_equal. f_equal. destruct (file st) as [[ta|] [tb|]]; reflexivity.
Qed.

Lemma initialized_has_tables d : has_tables (initialized d).
Proof. split; by eexists. Qed.

Lemma call_file op st :
  file (call op st).2 = disk (op (World (typed st) [] (file st) (file st))).2.
Proof. unfold call. by destruct (op _). Qed.

Lemma menu_loop_invariant (P : db → Prop) :
  (∀ choice op w, dispatch choice = Some op → P (disk w) → P (disk (op w).2)) →
  ∀ fuel st r st',
    P (file st) → menu_loop fuel st = Some (r, st') → P (file st').
Proof.
  intros Hop. induction fuel as [|fuel IH]; intros [[|choice rest] sh d] r st';
    cbn [file]; intros HP; try discriminate.
  - rewrite menu_loop_eof. by intros [= _ <-].
  - rewrite menu_loop_step. destruct (dispatch choice) as [op|] eqn:Hd.
    + pose proof (call_file op (Session rest (sh ++ menu) d)) as Hf.
      destruct (call op _) as [[[]|e] st1]; simpl in Hf.
      * apply IH. rewrite Hf. by apply (Hop choice).
      * intros [= _ <-]. rewrite Hf. by apply (Hop choice).
    + destruct (String.eqb choice "0"); [by intros [= _ <-]|].
      by apply IH.
Qed.

Lemma dispatch_storable choice op w :
  dispatch choice = Some op → storable (disk w) → storable (disk (op w).2).
Proof.
  unfold dispatch. intros Hop.
  repeat (destruct (String.eqb choice _); [injection Hop as <-|]);
    [| | | | |discriminate].
  - apply enter_book_storable.
  - apply update_book_storable.
  - apply delete_book_storable.
  - by rewrite search_books_disk.
  - by rewrite view_all_books_disk.
Qed.

Lemma dispatch_has_tables choice op w :
  dispatch choice = Some op → has_tables (disk w) → has_tables (disk (op w).2).
Proof.
  unfold dispatch. intros Hop.
  repeat (destruct (String.eqb choice _); [injection Hop as <-|]);
    [| | | | |discriminate].
  - apply enter_book_has_tables.
  - apply update_book_has_tables.
  - apply delete_book_has_tables.
  - by rewrite search_books_disk.
  - by rewrite view_all_books_disk.
Qed.

(** *** More runs of the operations *)

Lemma delete_book_deletes s id i out ta tb :
  Py.int s = Some id → in_int64 id = true →
  delete_book (World (s :: i) out (Db ta (Some tb)) (Db ta (Some tb)))
  = (Return tt,
     World i (out ++ [Deleted id])
       (Db ta (Some (delete id tb))) (Db ta (Some (delete id tb)))).
Proof.
  intros Hs Hr. unfold delete_book, Sql.delete_book. run. rewrite Hs. run.
  rewrite Hr. run. reflexivity.
Qed.



(** *** More on LIKE *)

Lemma lower_lower c : lower (lower c) = lower c.
Proof. by destruct c as [[] [] [] [] [] [] [] []]. Qed.

Lemma lower_percent c : Ascii.eqb (lower c) "%" = Ascii.eqb c "%".
Proof. by destruct c as [[] [] [] [] [] [] [] []]. Qed.

Lemma lower_underscore c : Ascii.eqb (lower c) "_" = Ascii.eqb c "_".
Proof. by destruct c as [[] [] [] [] [] [] [] []]. Qed.

Lemma like_fold_pattern p s : pattern_compare (fold_case p) s = pattern_compare p s.
Proof.
  revert s. induction p as [|c p IH]; intros s; [reflexivity|].
  cbn [fold_case]. destruct (Ascii.eqb c "%") eqn:Hc.
  - apply Ascii.eqb_eq in Hc as ->. change (lower "%") with "%"%char.
    induction s as [|d s IHs].
    + by rewrite (like_percent (fold_case p) ""), (like_percent p ""), IH.
    + rewrite (like_percent (fold_case p) (String d s)),
        (like_percent p (String d s)), IH. by rewrite IHs.
  - rewrite !like_char by (by rewrite ?lower_percent).
    destruct s as [|d s]; [reflexivity|].
    by rewrite lower_underscore, lower_lower, IH.
Qed.

Lemma fold_case_app a b : fold_case (a +:+ b) = fold_case a +:+ fold_case b.
Proof. induction a as [|c a IH]; [done|]. rewrite !app_cons. simpl. by rewrite IH. Qed.

Lemma lower_nul c : Ascii.eqb (lower c) "000" = Ascii.eqb c "000".
Proof. by destruct c as [[] [] [] [] [] [] [] []]. Qed.

Lemma lower_width c :
  (nat_of_ascii (lower c) <? 128)%nat = (nat_of_ascii c <? 128)%nat.
Proof. by destruct c as [[] [] [] [] [] [] [] []]. Qed.

Lemma c_str_fold_case s : c_str (fold_case s) = fold_case (c_str s).
Proof.
  induction s as [|c s IH]; [done|]. simpl. rewrite lower_nul.
  destruct (Ascii.eqb c "000"); [done|]. simpl. by rewrite IH.
Qed.

Lemma utf8_length_fold_case s : utf8_length (fold_case s) = utf8_length s.
Proof.
  induction s as [|c s IH]; [done|]. cbn [fold_case].
  by rewrite !utf8_length_cons, lower_width, IH.
Qed.

Lemma c_str_of_fold s : fold_case (c_str s) = fold_case s → c_str s = s.
Proof.
  induction s as [|c s IH]; [done|]. simpl.
  destruct (Ascii.eqb c "000"); [discriminate|]. simpl.
  intros [= H]. by rewrite IH.
Qed.

Lemma c_str_contains_ci t k : contains_ci (c_str t) k → c_str k = k.
Proof.
  intros (pre & mid & post & H & Hf).
  assert (Hmid : c_str mid = mid).
  { pose proof (c_str_idem t) as Hi. rewrite H in Hi.
    apply c_str_parts in Hi as [_ Hi]. by apply c_str_parts in Hi as [Hi _]. }
  apply c_str_of_fold.
  by rewrite <- c_str_fold_case, <- Hf, c_str_fold_case, Hmid.
Qed.

(** Keywords that agree up to the case of ASCII letters make the same
    pattern, of the same length. *)
Lemma like_same_fold k1 k2 t :
  fold_case k1 = fold_case k2 →
  like ("%" +:+ k1 +:+ "%") t = like ("%" +:+ k2 +:+ "%") t.
Proof.
  intros H. unfold like.
  rewrite <- (like_fold_pattern (c_str ("%" +:+ k1 +:+ "%"))).
  rewrite <- (like_fold_pattern (c_str ("%" +:+ k2 +:+ "%"))).
  by rewrite <- !c_str_fold_case, !fold_case_app, H.
Qed.

Lemma fits_same_fold k1 k2 :
  fold_case (Py.strip k1) = fold_case (Py.strip k2) → fits k1 = fits k2.
Proof.
  intros H. rewrite !fits_bytes.
  by rewrite <- (utf8_length_fold_case (Py.strip k1)), H,
    utf8_length_fold_case.
Qed.

Lemma like_contains_ci_any k t :
  contains_ci (c_str t) k → like ("%" +:+ k +:+ "%") t = true.
Proof.
  intros Hc. rewrite like_keyword by by apply (c_str_contains_ci t).
  destruct Hc as (pre & mid & post & -> & Hf).
  change ("%" +:+ k +:+ "%") with (String "%" (k +:+ "%")).
  apply like_percent_spec. exists pre, (mid +:+ post). split; [done|].
  by apply like_prefix.
Qed.

Lemma length_app_s a b :
  String.length (a +:+ b) = (String.length a + String.length b)%nat.
Proof. induction a as [|c a IH]; [done|]. rewrite app_cons. simpl. by rewrite IH. Qed.

Lemma like_underscores_prefix n t :
  pattern_compare (repeat_char "_" n +:+ "%") t = (n <=? String.length t)%nat.
Proof.
  revert t. induction n as [|n IH]; intros t.
  - apply like_percent_only.
  - cbn [repeat_char]. rewrite app_cons, like_char by done.
    destruct t as [|d t]; [reflexivity|]. rewrite IH. reflexivity.
Qed.

Lemma c_str_underscores n : c_str (repeat_char "_" n) = repeat_char "_" n.
Proof. induction n as [|n IH]; [done|]. simpl. by rewrite IH. Qed.

Lemma c_str_percents n : c_str (repeat_char "%" n) = repeat_char "%" n.
Proof. induction n as [|n IH]; [done|]. simpl. by rewrite IH. Qed.

Lemma utf8_length_underscores n : utf8_length (repeat_char "_" n) = Z.of_nat n.
Proof.
  induction n as [|n IH]; [done|]. cbn [repeat_char].
  rewrite utf8_length_cons, IH.
  change (if (nat_of_ascii "_" <? 128)%nat then 1 else 2) with 1. lia.
Qed.

Lemma utf8_length_percents n : utf8_length (repeat_char "%" n) = Z.of_nat n.
Proof.
  induction n as [|n IH]; [done|]. cbn [repeat_char].
  rewrite utf8_length_cons, IH.
  change (if (nat_of_ascii "%" <? 128)%nat then 1 else 2) with 1. lia.
Qed.

Lemma like_underscores n t :
  like ("%" +:+ repeat_char "_" n +:+ "%") t
  = (n <=? String.length (c_str t))%nat.
Proof.
  rewrite like_keyword by apply c_str_underscores. generalize (c_str t) as u.
  intros u. clear t. rename u into t.
  change ("%" +:+ repeat_char "_" n +:+ "%")
    with (String "%" (repeat_char "_" n +:+ "%")).
  destruct (n <=? String.length t)%nat eqn:Hn.
  - apply like_percent_spec. exists "", t. split; [done|].
    by rewrite like_underscores_prefix.
  - apply not_true_is_false. intros H.
    apply like_percent_spec in H as (pre & post & -> & H).
    rewrite like_underscores_prefix in H. apply Nat.leb_le in H.
    apply Nat.leb_gt in Hn. rewrite length_app_s in Hn. lia.
Qed.

Lemma like_percents n t :
  like ("%" +:+ repeat_char "%" n +:+ "%") t = true.
Proof.
  rewrite like_keyword by apply c_str_percents. generalize (c_str t) as u.
  intros u. clear t. rename u into t.
  change ("%" +:+ repeat_char "%" n +:+ "%")
    with (repeat_char "%" (S n) +:+ "%").
  induction (S n) as [|m IH]; [apply like_percent_only|].
  cbn [repeat_char]. rewrite app_cons, like_percent, IH. reflexivity.
Qed.

(** *** Verdicts and frames, in every world *)

(** X1.  Whatever the input and the state of the file, [enter_book]
    returns normally and prints exactly one message.  Either it is an
    error and the file is unchanged, or it is the success message and the
    file differs by one row of [book] under an id that was free; the rows
    that were there and the [author] table stay as they were. *)
Theorem enter_book_verdict w :
  ∃ w', enter_book w = (Return tt, w')
    ∧ ((∃ e, stdout w' = (stdout w ++ [ErrorAddingBook e])%list
             ∧ disk w' = disk w)
       ∨ (∃ tb id r,
            book (disk w) = Some tb ∧ tb !! id = None
            ∧ stdout w' = (stdout w ++ [BookAdded (title r)])%list
            ∧ disk w' = Db (author (disk w)) (Some (<[id := r]> tb))
            ∧ tb ⊆ <[id := r]> tb)).
Proof.
  destruct (enter_book_shape w) as (w' & Hrun & _ & [H|H]).
  - exists w'. split; [done|]. by left.
  - destruct H as (tb & id & r & Hb & Hfresh & Hout & Hd).
    exists w'. split; [done|]. right. exists tb, id, r.
    repeat split; try done. by apply insert_subseteq.
Qed.

(** X2.  Whatever the input and the state of the file, [delete_book]
    returns normally and prints exactly one message.  Either it is an
    error and the file is unchanged, or it is the success message for an
    id, and the file differs at most by the row of [book] under that id;
    no row is added and the [author] table stays as it was. *)
Theorem delete_book_verdict w :
  ∃ w', delete_book w = (Return tt, w')
    ∧ ((∃ e, stdout w' = (stdout w ++ [ErrorDeletingBook e])%list
             ∧ disk w' = disk w)
       ∨ (∃ tb id,
            book (disk w) = Some tb
            ∧ stdout w' = (stdout w ++ [Deleted id])%list
            ∧ disk w' = Db (author (disk w)) (Some (delete id tb))
            ∧ delete id tb ⊆ tb)).
Proof.
  destruct (delete_book_shape w) as (w' & Hrun & _ & [H|H]).
  - exists w'. split; [done|]. by left.
  - destruct H as (tb & id & Hb & Hout & Hd).
    exists w'. split; [done|]. right. exists tb, id.
    repeat split; try done. apply delete_subseteq.
Qed.

(** X3.  Whatever the input and the state of the file, [update_book]
    returns normally, and the last message it prints is either an error,
    in which case the file is unchanged, or the success message, in which
    case at most one row of one table was rewritten.  In no case is a row
    added or removed: both tables keep their ids. *)
Theorem update_book_verdict w :
  ∃ w' l, update_book w = (Return tt, w')
    ∧ stdout w' = (stdout w ++ l)%list
    ∧ same_ids (disk w) (disk w')
    ∧ ((∃ e, last l = Some (ErrorUpdatingBook e) ∧ disk w' = disk w)
       ∨ (last l = Some Updated
          ∧ (disk w' = disk w
             ∨ (∃ tb f id,
                  book (disk w) = Some tb
                  ∧ disk w' = Db (author (disk w)) (Some (alter f id tb)))
             ∨ (∃ ta f id,
                  author (disk w) = Some ta
                  ∧ disk w' = Db (Some (alter f id ta)) (book (disk w)))))).
Proof.
  destruct (update_book_shape w) as (w' & l & Hrun & _ & Hout & H).
  exists w', l. split; [done|]. split; [done|]. split; [|done].
  destruct H as [(e & _ & ->)|(_ & [->|[H|H]])]; try done.
  - destruct H as (tb & f & id & Hb & ->). split; [done|]. simpl.
    rewrite Hb. simpl. by rewrite dom_alter_L.
  - destruct H as (ta & f & id & Ha & ->). split; [|done]. simpl.
    rewrite Ha. simpl. by rewrite dom_alter_L.
Qed.



(** X5.  Every integer the file holds fits SQLite's INTEGER, and every
    operation keeps it so: if the ids, author ids and quantities stored
    before an operation lie in the signed 64-bit range, so do those stored
    after it, for the five operations and for initialization. *)
Theorem stored_integers_fit w :
  storable (disk w) →
  storable (disk (enter_book w).2)
  ∧ storable (disk (update_book w).2)
  ∧ storable (disk (delete_book w).2)
  ∧ storable (disk (search_books w).2)
  ∧ storable (disk (view_all_books w).2)
  ∧ storable (disk (initialize w).2).
Proof.
  intros Hd. split; [by apply enter_book_storable|].
  split; [by apply update_book_storable|].
  split; [by apply delete_book_storable|].
  split; [by rewrite search_books_disk|].
  split; [by rewrite view_all_books_disk|].
  destruct w as [i out d c]. by apply initialize_storable.
Qed.

Lemma stored_integers_fit_witness :
  storable seeded
  ∧ storable (disk (enter_book
                      (World ["4001"; "Test Book"; "1290"; "5"] []
                         seeded seeded)).2).
Proof.
  split; [exact seeded_storable|].
  apply (stored_integers_fit
           (World ["4001"; "Test Book"; "1290"; "5"] [] seeded seeded)).
  exact seeded_storable.
Defined.

(** *** How the operations compose *)



(** X7.  After a successful [delete_book], [search_books] with a keyword
    whose pattern is within the engine's limit lists no row under the
    deleted id, and still lists every other row it would have listed
    before. *)
Theorem delete_then_search s k i out ta tb id :
  Py.int s = Some id → in_int64 id = true → fits k = true →
  (delete_book ;;; search_books)
    (World (s :: k :: i) out (Db ta (Some tb)) (Db ta (Some tb)))
  = (Return tt,
     World i (out ++ [Deleted id] ++ search_report (matches k (delete id tb)))
       (Db ta (Some (delete id tb))) (Db ta (Some (delete id tb))))
  ∧ (∀ t a q, SearchRow id t a q ∉ search_report (matches k (delete id tb)))
  ∧ (∀ j b, j ≠ id →
       (j, b) ∈ matches k tb ↔ (j, b) ∈ matches k (delete id tb)).
Proof.
  intros Hs Hr Hfit. split; [|split].
  - unfold bind at 1. cbv beta. rewrite (delete_book_deletes s id) by done.
    rewrite search_books_runs by done. by rewrite <- app_assoc.
  - intros t a q Hin.
    assert (∃ row, row ∈ matches k (delete id tb) ∧ row.1 = id)
      as ([j b] & Hrow & Hj).
    { destruct (matches k (delete id tb)) as [|r rows];
        unfold search_report in Hin.
      - apply list_elem_of_singleton in Hin. discriminate.
      - apply elem_of_cons in Hin as [Hin|Hin]; [discriminate|].
        change (SearchRow id t a q ∈ search_row <$> (r :: rows)) in Hin.
        apply list_elem_of_fmap in Hin as (row & Heq & Hrow).
        exists row. split; [done|]. by injection Heq as -> _ _ _. }
    simpl in Hj. subst j. apply matches_spec in Hrow as [Hrow _].
    by rewrite lookup_delete_eq in Hrow.
  - intros j b Hj. rewrite !matches_spec, lookup_delete_ne by done. tauto.
Qed.

Lemma delete_then_search_witness :
  (delete_book ;;; search_books) (World ["3002"; "Harry"] [] seeded seeded)
  = (Return tt,
     World [] [Deleted 3002; NoBooksFound]
       (Db (Some seed_author_table) (Some (delete 3002 seed_book_table)))
       (Db (Some seed_author_table) (Some (delete 3002 seed_book_table)))).
Proof.
  exact (proj1 (delete_then_search "3002" "Harry" [] []
                  (Some seed_author_table) seed_book_table 3002
                  eq_refl eq_refl eq_refl)).
Defined.





(** X10.  When the operator deletes the only book left, the next start
    of the program seeds the five sample books again: initialization
    cannot tell a table emptied on purpose from a new one. *)
Theorem last_book_comes_back s i out ta tb id :
  Py.int s = Some id → in_int64 id = true → dom tb = {[id]} →
  (delete_book ;;; initialize)
    (World (s :: i) out (Db (Some ta) (Some tb)) (Db (Some ta) (Some tb)))
  = (Return tt,
     World i (out ++ [Deleted id])
       (Db (Some (seed_if_empty seed_author_table (Some ta)))
           (Some seed_book_table))
       (Db (Some (seed_if_empty seed_author_table (Some ta)))
           (Some seed_book_table))).
Proof.
  intros Hs Hr Hdom. unfold bind at 1. cbv beta.
  rewrite (delete_book_deletes s id) by done. rewrite initialize_runs.
  assert (delete id tb = ∅) as ->.
  { apply dom_empty_iff_L. rewrite dom_delete_L, Hdom.
    apply difference_diag_L. }
  reflexivity.
Qed.

Lemma last_book_comes_back_witness :
  (delete_book ;;; initialize)
    (World ["7"] [] (Db (Some seed_author_table)
                        (Some {[7 := BookRow "Emma" 1290 1]}))
                    (Db (Some seed_author_table)
                        (Some {[7 := BookRow "Emma" 1290 1]})))
  = (Return tt, World [] [Deleted 7] seeded seeded).
Proof.
  apply (last_book_comes_back "7" [] [] seed_author_table
           {[7 := BookRow "Emma" 1290 1]} 7); [reflexivity..|].
  apply dom_singleton_L.
Defined.

(** *** Edge cases of the input *)

(** X11.  A menu choice of [update_book] other than "1" to "4" changes
    nothing and reads nothing more, yet after the invalid-choice message
    the operation still prints the success message.  This holds for any
    book id that parses, and whatever the file holds. *)
Theorem update_book_invalid_choice s id choice i out d :
  Py.int s = Some id →
  choice ≠ "1" → choice ≠ "2" → choice ≠ "3" → choice ≠ "4" →
  update_book (World (s :: choice :: i) out d d)
  = (Return tt, World i (out ++ update_menu ++ [InvalidChoice; Updated]) d d).
Proof.
  intros Hs H1 H2 H3 H4. unfold update_book. run. rewrite Hs. run.
  apply String.eqb_neq in H1, H2, H3, H4. rewrite H1, H2, H3, H4. run.
  printed.
Qed.

Lemma update_book_invalid_choice_witness :
  update_book (World ["3001"; " 1"] [] no_tables no_tables)
  = (Return tt,
     World [] (update_menu ++ [InvalidChoice; Updated]) no_tables no_tables).
Proof.
  apply (update_book_invalid_choice "3001" 3001 " 1" [] [] no_tables);
    [reflexivity | discriminate..].
Defined.

(** X12.  A book id that is not a number is refused at once: each of
    [enter_book], [update_book] and [delete_book] reads that one line
    only, prints one error for the [ValueError], opens no connection and
    leaves the file alone; [update_book] does not even show its options.
    The lines typed after it stay in the input. *)
Theorem non_numeric_id_is_refused s i out d c :
  Py.int s = None →
  enter_book (World (s :: i) out d c)
  = (Return tt, World i (out ++ [ErrorAddingBook ValueError]) d c)
  ∧ update_book (World (s :: i) out d c)
    = (Return tt, World i (out ++ [ErrorUpdatingBook ValueError]) d c)
  ∧ delete_book (World (s :: i) out d c)
    = (Return tt, World i (out ++ [ErrorDeletingBook ValueError]) d c).
Proof.
  intros Hs. unfold enter_book, update_book, delete_book. run.
  rewrite Hs. run. done.
Qed.

Lemma non_numeric_id_is_refused_witness :
  enter_book (World ["12a"; "2"] [] seeded seeded)
  = (Return tt, World ["2"] [ErrorAddingBook ValueError] seeded seeded).
Proof.
  apply (non_numeric_id_is_refused "12a" ["2"] [] seeded seeded).
  reflexivity.
Defined.

(** X13.  In modes 1 and 3 of [update_book] a new value that is not a
    number is refused after the options were shown: one error for the
    [ValueError] is printed and the file is unchanged, whatever it holds
    and whether or not the book exists. *)
Theorem update_book_non_numeric_value s id choice v i out d :
  Py.int s = Some id → Py.int v = None →
  choice = "1" ∨ choice = "3" →
  update_book (World (s :: choice :: v :: i) out d d)
  = (Return tt,
     World i (out ++ update_menu ++ [ErrorUpdatingBook ValueError]) d d).
Proof.
  intros Hs Hv [-> | ->]; unfold update_book; run; rewrite Hs; run;
    rewrite Hv; run; printed.
Qed.

Lemma update_book_non_numeric_value_witness :
  update_book (World ["3001"; "1"; "many"] [] seeded seeded)
  = (Return tt,
     World [] (update_menu ++ [ErrorUpdatingBook ValueError]) seeded seeded).
Proof.
  apply (update_book_non_numeric_value "3001" 3001 "1" "many" [] [] seeded);
    [reflexivity | reflexivity | by left].
Defined.

(** X14.  In mode 4 of [update_book], leaving both the name and the
    country blank rewrites the author's row with its own values: the file
    is unchanged, and success is reported. *)
Theorem update_author_blank_is_noop s sn sc i out ta tb id b a :
  Py.int s = Some id → in_int64 id = true → in_int64 (authorID b) = true →
  tb !! id = Some b → ta !! authorID b = Some a →
  Py.strip sn = "" → Py.strip sc = "" →
  update_book (World (s :: "4" :: sn :: sc :: i) out
                 (Db (Some ta) (Some tb)) (Db (Some ta) (Some tb)))
  = (Return tt,
     World i (out ++ update_menu ++
              [CurrentAuthor (name a) (country a); Updated])
       (Db (Some ta) (Some tb)) (Db (Some ta) (Some tb))).
Proof.
  intros Hs Hi Hai Hb Ha Hn Hc.
  rewrite (update_author_runs s sn sc i out ta tb id b a) by done.
  rewrite Hn, Hc. simpl.
  rewrite (alter_present _ _ _ a) by done.
  destruct a as [n c]. simpl. by rewrite insert_id.
Qed.

Lemma update_author_blank_is_noop_witness :
  update_book (World ["3001"; "4"; ""; "  "] [] seeded seeded)
  = (Return tt,
     World [] (update_menu ++ [CurrentAuthor "Charles Dickens" "England"; Updated])
       seeded seeded).
Proof.
  apply (update_author_blank_is_noop "3001" "" "  " [] [] seed_author_table
           seed_book_table 3001 (BookRow "A Tale of Two Cities" 1290 30)
           (AuthorRow "Charles Dickens" "England"));
    reflexivity.
Defined.

(** X15.  [populate_tables] is all or nothing.  Called on a file that
    lacks one of the tables it raises [OperationalError] and leaves the
    file as it was, even when it had already inserted the seed authors
    before it met the missing [book] table. *)
Theorem populate_tables_all_or_nothing i out d :
  author d = None ∨ book d = None →
  populate_tables (World i out d d) = (Raise OperationalError, World i out d d).
Proof.
  intros Hd. unfold populate_tables, count_author, count_book.
  destruct d as [[ta|] [tb|]]; [by destruct Hd| |reflexivity..].
  run. rewrite count_zero.
  destruct (size ta =? 0)%nat eqn:Ha; [|reflexivity].
  apply Nat.eqb_eq, map_size_empty_iff in Ha as ->.
  rewrite seed_authors_run. reflexivity.
Qed.

Lemma populate_tables_all_or_nothing_witness :
  populate_tables (World [] [] (Db (Some ∅) None) (Db (Some ∅) None))
  = (Raise OperationalError, World [] [] (Db (Some ∅) None) (Db (Some ∅) None)).
Proof.
  apply (populate_tables_all_or_nothing [] [] (Db (Some ∅) None)).
  by right.
Defined.

(** *** Searching *)

(** X16.  The search does not depend on the case of ASCII letters in the
    keyword or on blanks around it: two keywords that agree once stripped
    and case-folded make [search_books] behave in the same way. *)
Theorem search_books_ignores_case k1 k2 i out d :
  fold_case (Py.strip k1) = fold_case (Py.strip k2) →
  search_books (World (k1 :: i) out d d) = search_books (World (k2 :: i) out d d).
Proof.
  intros Hk. destruct d as [ta [tb|]]; [|reflexivity].
  rewrite !search_books_cases, (fits_same_fold k1 k2 Hk).
  assert (matches k1 tb = matches k2 tb) as ->; [|reflexivity].
  unfold matches. apply list_filter_iff. intros [id b]. simpl.
  by rewrite (like_same_fold _ _ _ Hk).
Qed.

Lemma search_books_ignores_case_witness :
  search_books (World ["  LION "] [] seeded seeded)
  = search_books (World ["lion"] [] seeded seeded).
Proof.
  apply (search_books_ignores_case "  LION " "lion" [] [] seeded).
  reflexivity.
Defined.

(** X17.  The search misses nothing: for a keyword whose pattern is
    within the engine's limit, pattern characters or not, every book
    whose title, read up to its first NUL, contains the stripped keyword
    up to ASCII case is printed with its id, title, author id and
    quantity. *)
Theorem search_books_is_complete s i out ta tb id b :
  tb !! id = Some b → fits s = true →
  contains_ci (c_str (title b)) (Py.strip s) →
  SearchRow id (title b) (authorID b) (qty b)
  ∈ stdout (search_books
              (World (s :: i) out (Db ta (Some tb)) (Db ta (Some tb)))).2.
Proof.
  intros Hb Hfit Hc. rewrite search_books_runs by done. simpl.
  assert (Hin : (id, b) ∈ matches s tb).
  { apply matches_spec. split; [done|]. by apply like_contains_ci_any. }
  apply elem_of_app. right.
  destruct (matches s tb) as [|r rows]; [by apply elem_of_nil in Hin|].
  unfold search_report. right.
  apply (list_elem_of_fmap_2 search_row _ _ Hin).
Qed.

Lemma search_books_is_complete_witness :
  SearchRow 7 "100% Wool_Yarn" 1290 3
  ∈ stdout (search_books
              (World ["% wool_"] []
                 (Db None (Some {[7 := BookRow "100% Wool_Yarn" 1290 3]}))
                 (Db None (Some {[7 := BookRow "100% Wool_Yarn" 1290 3]})))).2.
Proof.
  apply (search_books_is_complete "% wool_" [] [] None
           {[7 := BookRow "100% Wool_Yarn" 1290 3]} 7
           (BookRow "100% Wool_Yarn" 1290 3)).
  - reflexivity.
  - reflexivity.
  - by exists "100", "% Wool_", "Yarn".
Defined.

(** X18.  The keyword is a pattern, not a literal text.  With a keyword
    of [n] underscores, [n] up to 49998, [search_books] lists exactly the
    books whose title, read up to its first NUL, has at least [n]
    characters; with a keyword of [n] percent signs it lists every book,
    whether or not the titles contain those characters. *)
Theorem search_books_reads_wildcards s n i out ta tb :
  Z.of_nat n ≤ 49998 →
  (Py.strip s = repeat_char "_" n →
   search_books (World (s :: i) out (Db ta (Some tb)) (Db ta (Some tb)))
   = (Return tt,
      World i (out ++ search_report (matches s tb))
        (Db ta (Some tb)) (Db ta (Some tb)))
   ∧ ∀ id b, (id, b) ∈ matches s tb ↔
             tb !! id = Some b ∧ (n ≤ String.length (c_str (title b)))%nat)
  ∧ (Py.strip s = repeat_char "%" n →
     search_books (World (s :: i) out (Db ta (Some tb)) (Db ta (Some tb)))
     = (Return tt,
        World i (out ++ search_report (map_to_list tb))
          (Db ta (Some tb)) (Db ta (Some tb)))).
Proof.
  intros Hn. split; intros Hs.
  - split.
    + apply search_books_runs. rewrite fits_bytes, Hs, utf8_length_underscores.
      apply Z.leb_le. lia.
    + intros id b. rewrite matches_spec, Hs, like_underscores.
      by rewrite Nat.leb_le.
  - assert (matches s tb = map_to_list tb) as <-.
    { unfold matches. rewrite Hs.
      induction (map_to_list tb) as [|r l IH]; [reflexivity|].
      rewrite filter_cons_True, IH; [reflexivity|]. apply like_percents. }
    apply search_books_runs. rewrite fits_bytes, Hs, utf8_length_percents.
    apply Z.leb_le. lia.
Qed.

Lemma search_books_reads_wildcards_witness :
  Z.of_nat 3 ≤ 49998
  ∧ search_books (World [" ___ "] [] seeded seeded)
    = (Return tt,
       World [] (search_report (matches " ___ " seed_book_table))
         seeded seeded)
  ∧ (3004, BookRow "The Lord of the Rings" 6380 37)
    ∈ matches " ___ " seed_book_table.
Proof.
  assert (Hn : Z.of_nat 3 ≤ 49998) by (simpl; lia).
  destruct (proj1 (search_books_reads_wildcards " ___ " 3 [] []
                     (Some seed_author_table) seed_book_table Hn) eq_refl)
    as [Hrun Hrows].
  split; [exact Hn|]. split; [exact Hrun|].
  apply (Hrows 3004 (BookRow "The Lord of the Rings" 6380 37)).
  split; [reflexivity | vm_compute; lia].
Defined.

(** *** The menu loop *)



Example main_two_sessions :
  main 3 (Session ["9"; "0"] [] no_tables)
  = Some (Return tt,
          Session [] (menu ++ [InvalidSelection] ++ menu ++ [Goodbye]) seeded)
  ∧ main 3 (Session ["4"] [] no_tables)
    = Some (Raise EOFError, Session [] menu seeded).
Proof. split; by vm_compute. Qed.

(** The third ending: a search keyword of 49999 bytes on the seeded
    store. *)
Example main_stops_on_long_pattern :
  match main 3 (Session ["4"; repeat_char "a" (Z.to_nat 49999)] [] no_tables)
  with
  | Some (Raise OperationalError, st') => typed st' = [] ∧ file st' = seeded
  | _ => False
  end.
Proof. by vm_compute. Qed.

(** X20.  Whatever happens during a session, when [main] ends both
    tables exist, and if the integers stored at the start fitted SQLite's
    INTEGER, so do those stored at the end. *)
Theorem main_keeps_the_store fuel st r st' :
  main fuel st = Some (r, st') →
  has_tables (file st') ∧ (storable (file st) → storable (file st')).
Proof.
  rewrite main_runs. intros Hrun. split.
  - eapply (menu_loop_invariant has_tables dispatch_has_tables fuel
              (Session (typed st) (shown st) (initialized (file st))));
      [apply initialized_has_tables | exact Hrun].
  - intros Hs.
    eapply (menu_loop_invariant storable dispatch_storable fuel
              (Session (typed st) (shown st) (initialized (file st))));
      [by apply storable_initialized | exact Hrun].
Qed.

Lemma main_keeps_the_store_witness :
  has_tables seeded ∧ (storable no_tables → storable seeded).
Proof.
  apply (main_keeps_the_store 3 (Session ["9"; "0"] [] no_tables) (Return tt)
           (Session [] (menu ++ [InvalidSelection] ++ menu ++ [Goodbye])
              seeded)).
  by vm_compute.
Defined.
